(** * decktape-server: the [POST /convert] handler

    A shallow embedding of the request handler of [server.js] and of its
    sibling file (the variant without navigation keys), followed by the
    properties of the conversion pipeline: validation, staging, argument
    construction, process supervision, response and cleanup.

    Conventions.
    - JavaScript values that can reach the handler through [req.body] are the
      values [JSON.parse] produces, plus [undefined] for a missing property.
    - Calls into Node and Express ([fs], [child_process], [res]) are recorded
      in a trace, in the order in which the handler issues them; what the
      outside world answers is given by a [world] record.
    - The methods of [res] and the functions [resolve] and [reject] do not
      throw.
    - [console.log] and [console.error] calls are left out of the trace:
      they neither throw nor influence control flow.
    - The handler has the same text in both files, but for the [args]
      array; [variant] names the file. *)

From Stdlib Require Import String Ascii List ZArith Bool Lia.
From Stdlib Require Import DecimalString.
Import ListNotations.
Local Open Scope string_scope.

Set Warnings "-register-all".

(* ================================================================== *)
(** ** JavaScript values *)

(** A parsed JSON document. [VNum] carries an integer-valued number in the
    safe range, where [String(n)] is the plain decimal rendering. [VObj]
    lists the own properties of an object; the first binding of a key is the
    property's value. *)
Inductive value : Type :=
| VUndefined
| VNull
| VBool (b : bool)
| VNum (n : Z)
| VStr (s : string)
| VArr (elems : list value)
| VObj (fields : list (string * value)).

(** Thrown values: the engine's [TypeError] and [ReferenceError], and plain
    [Error] objects (those built with [new Error(..)] and those [fs] and
    [child_process] reject or throw with). *)
Inductive error : Type :=
| TypeError (msg : string)
| ReferenceError (msg : string)
| Error (msg : string).

(** [error.message] *)
Definition message (e : error) : string :=
  match e with
  | TypeError m => m
  | ReferenceError m => m
  | Error m => m
  end.

Definition str_truthy (s : string) : bool :=
  match s with
  | EmptyString => false
  | String _ _ => true
  end.

(** ToBoolean, as used by [!html], [options.size ? .. : ..], [x || y] and
    [if (tmpDir)]. *)
Definition truthy (v : value) : bool :=
  match v with
  | VUndefined => false
  | VNull => false
  | VBool b => b
  | VNum n => negb (Z.eqb n 0)
  | VStr s => str_truthy s
  | VArr _ => true
  | VObj _ => true
  end.

Fixpoint assoc (k : string) (fields : list (string * value)) : option value :=
  match fields with
  | [] => None
  | (k', v) :: rest => if String.eqb k k' then Some v else assoc k rest
  end.

(** Number::toString on an integer, in the range where it is the plain
    decimal rendering: the safe integers, which [JSON.parse] reads exactly.
    (From 10^21 on the engine switches to exponent notation, and beyond
    2^53 [JSON.parse] rounds; such numbers are outside what [VNum]
    stands for.) *)
Definition number_to_string (n : Z) : string :=
  NilZero.string_of_int (Z.to_int n).

(** ToString, as performed by a template literal [`${v}`]. [None] stands for
    the [TypeError] of an object that cannot be converted to a primitive: a
    parsed object whose own [toString] property shadows
    [Object.prototype.toString] with something that is not callable. An array
    is rendered by [Array.prototype.join]: elements separated by commas,
    [null] and [undefined] elements rendered empty. *)
Fixpoint to_string (v : value) : option string :=
  match v with
  | VUndefined => Some "undefined"
  | VNull => Some "null"
  | VBool b => Some (if b then "true" else "false")
  | VNum n => Some (number_to_string n)
  | VStr s => Some s
  | VArr elems =>
      (fix join_elems (l : list value) : option string :=
         match l with
         | [] => Some ""
         | x :: rest =>
             let sx := match x with
                       | VUndefined => Some ""
                       | VNull => Some ""
                       | _ => to_string x
                       end in
             match sx, rest with
             | None, _ => None
             | Some s, [] => Some s
             | Some s, _ :: _ =>
                 match join_elems rest with
                 | None => None
                 | Some t => Some (s ++ "," ++ t)
                 end
             end
         end) elems
  | VObj fields =>
      match assoc "toString" fields with
      | Some _ => None
      | None => Some "[object Object]"
      end
  end.

(** Property read [v.k], for a key [k] that no built-in prototype defines
    (the handler reads [html], [options], [size] and [pause]). [None] stands
    for the [TypeError] of reading a property of [undefined] or [null]. *)
Definition get (v : value) (k : string) : option value :=
  match v with
  | VUndefined => None
  | VNull => None
  | VObj fields =>
      match assoc k fields with
      | Some x => Some x
      | None => Some VUndefined
      end
  | _ => Some VUndefined
  end.

(** [s.split(",")]: the pieces between the occurrences of the separator;
    the empty string has one (empty) piece. *)
Fixpoint split (sep : ascii) (s : string) : list string :=
  match s with
  | EmptyString => [EmptyString]
  | String c rest =>
      if Ascii.eqb c sep then EmptyString :: split sep rest
      else
        match split sep rest with
        | [] => [String c EmptyString]
        | piece :: pieces => String c piece :: pieces
        end
  end.

(* ================================================================== *)
(** ** Process-wide configuration *)

(** What the handler reads from its surroundings: [path.join], the module's
    [__dirname], [os.tmpdir()] and the two environment variables. *)
Record config : Type := {
  join : string -> string -> string;
  __dirname : string;
  tmpdir : string;
  CHROME_PATH : option string;
  CHROME_FLAGS : option string
}.

(** [process.env.X || fallback]: an unset or empty variable gives the
    fallback. *)
Definition env_or (x : option string) (fallback : string) : string :=
  match x with
  | Some s => if str_truthy s then s else fallback
  | None => fallback
  end.

Definition decktapePath (cfg : config) : string :=
  join cfg (__dirname cfg) "decktape.js".

Definition chromePath (cfg : config) : string :=
  env_or (CHROME_PATH cfg) "/usr/bin/chromium-browser".

Definition chromeFlags (cfg : config) : list string :=
  split "," (env_or (CHROME_FLAGS cfg) "--no-sandbox,--disable-gpu").

Definition chrome_arg (flag : string) : string := "--chrome-arg=" ++ flag.

Definition htmlPath (cfg : config) (tmpDir : string) : string :=
  join cfg tmpDir "input.html".

Definition pdfPath (cfg : config) (tmpDir : string) : string :=
  join cfg tmpDir "output.pdf".

(** [`file://${path}`] *)
Definition file_uri (path : string) : string := "file://" ++ path.

(* ================================================================== *)
(** ** Argument vector *)

(** [...(options.k ? [`--k=${options.k}`] : [])]; the messages of the two
    [TypeError]s are V8's. *)
Definition option_tokens (options : value) (k : string) : error + list string :=
  match get options k with
  | None =>
      inl (TypeError ("Cannot read properties of null (reading '" ++ k ++ "')"))
  | Some v =>
      if truthy v then
        match to_string v with
        | Some s => inr ["--" ++ k ++ "=" ++ s]
        | None => inl (TypeError "Cannot convert object to primitive value")
        end
      else inr []
  end.

Definition key_tokens : list string := ["--key=ArrowDown"; "--key=ArrowRight"].

(** The [args] array of [server.js]. *)
Definition server_js_args (cfg : config) (tmpDir : string) (options : value)
  : error + list string :=
  match option_tokens options "size" with
  | inl e => inl e
  | inr size =>
      match option_tokens options "pause" with
      | inl e => inl e
      | inr pause =>
          inr ([decktapePath cfg; "--chrome-path"; chromePath cfg]
               ++ map chrome_arg (chromeFlags cfg)
               ++ ["generic"; file_uri (htmlPath cfg tmpDir); pdfPath cfg tmpDir;
                   "--key=ArrowDown"; "--key=ArrowRight"]
               ++ size ++ pause)%list
      end
  end.

(** The [args] array of the sibling file. *)
Definition part_000_args (cfg : config) (tmpDir : string) (options : value)
  : error + list string :=
  match option_tokens options "size" with
  | inl e => inl e
  | inr size =>
      match option_tokens options "pause" with
      | inl e => inl e
      | inr pause =>
          inr ([decktapePath cfg; "--chrome-path"; chromePath cfg]
               ++ map chrome_arg (chromeFlags cfg)
               ++ ["generic"; file_uri (htmlPath cfg tmpDir); pdfPath cfg tmpDir]
               ++ size ++ pause)%list
      end
  end.

Inductive variant : Type := ServerJs | Part000.

Definition args_of (v : variant) : config -> string -> value -> error + list string :=
  match v with
  | ServerJs => server_js_args
  | Part000 => part_000_args
  end.

(* ================================================================== *)
(** ** The outside world and the trace of calls *)

(** What the child process does, as the sequence of callbacks it triggers:
    a chunk on either stream, the ['error'] event, the ['close'] event with
    the exit code ([None] for [null], a child ended by a signal). *)
Inductive proc_event : Type :=
| StderrData (chunk : string)
| StdoutData (chunk : string)
| ErrorEvent (e : error)
| CloseEvent (code : option Z).

(** The answers of the outside world to the calls of one request. Each of
    these calls is issued at most once per request. [spawn_result] is either
    the exception [spawn] throws synchronously or the events of the child. *)
Record world : Type := {
  mkdtemp_result : error + string;
  writeFile_result : error + unit;
  spawn_result : error + list proc_event;
  readFile_result : error + list Byte.byte;
  rm_result : error + unit
}.

(** The calls the handler issues and the callbacks it is entered through. *)
Inductive effect : Type :=
| Status (code : Z)                        (* res.status(code) *)
| Json (body : value)                      (* .json(body) *)
| SetHeader (name val : string)            (* res.setHeader(name, val) *)
| Send (buf : list Byte.byte)              (* res.send(buf) *)
| Mkdtemp (prefix : string)                (* fs.mkdtemp(prefix) *)
| WriteFile (path : string) (data : value) (* fs.writeFile(path, data) *)
| Spawn (command : string) (args : list string)
| Event (ev : proc_event)                  (* a listener of the child runs *)
| ReadFile (path : string)                 (* fs.readFile(path) *)
| Rm (path : string).                      (* fs.rm(path, {recursive, force}) *)

(** How a promise stands. *)
Inductive settled : Type :=
| Pending
| Fulfilled
| Rejected (e : error).

(** The state of one request: the calls issued so far and the handler's
    [let tmpDir]. *)
Record state : Type := {
  trace : list effect;
  tmpDir : option string
}.

Definition initial : state := {| trace := []; tmpDir := None |}.

(** Computations that log calls, update [tmpDir] and may throw. *)
Definition M (A : Type) : Type := state -> state * (error + A).

Definition ret {A : Type} (a : A) : M A := fun st => (st, inr a).

Definition throw {A : Type} (e : error) : M A := fun st => (st, inl e).

Definition bind {A B : Type} (m : M A) (k : A -> M B) : M B :=
  fun st =>
    match m st with
    | (st', inr a) => k a st'
    | (st', inl e) => (st', inl e)
    end.

Notation "x <- m ;; k" := (bind m (fun x => k))
  (at level 61, m at next level, right associativity).
Notation "m ;; k" := (bind m (fun _ => k))
  (at level 61, right associativity).

Definition lift {A : Type} (r : error + A) : M A := fun st => (st, r).

Definition emit (e : effect) : M unit :=
  fun st => ({| trace := (trace st ++ [e])%list; tmpDir := tmpDir st |}, inr tt).

Definition set_tmpDir (d : string) : M unit :=
  fun st => ({| trace := trace st; tmpDir := Some d |}, inr tt).

Definition get_tmpDir : M (option string) := fun st => (st, inr (tmpDir st)).

(** [try { body } catch (error) { handler error }] *)
Definition try_catch {A : Type} (body : M A) (handler : error -> M A) : M A :=
  fun st =>
    match body st with
    | (st', inr a) => (st', inr a)
    | (st', inl e) => handler e st'
    end.

(** [await f(..)]: the call is logged, the world's answer is the result. *)
Definition call {A : Type} (e : effect) (answer : error + A) : M A :=
  emit e ;; lift answer.

(** [if (tmpDir)] *)
Definition tmpDir_truthy (t : option string) : option string :=
  match t with
  | Some d => if str_truthy d then Some d else None
  | None => None
  end.

(** [if (tmpDir) { try { await fs.rm(tmpDir, ..) } catch (e) { log } }]:
    a failed removal is logged only. *)
Definition cleanup (w : world) : M unit :=
  t <- get_tmpDir ;;
  match tmpDir_truthy t with
  | Some d => try_catch (call (Rm d) (rm_result w)) (fun _ => ret tt)
  | None => ret tt
  end.

(* ================================================================== *)
(** ** Lexical scopes of the handler *)

(** The names each scope of the source file declares. Of the properties
    of Node's global object the list has those the file uses; that object
    has no property [stdout] or [stderr] (the streams are
    [process.stdout] and [process.stderr]). *)
Definition global_names : list string :=
  ["console"; "process"; "Promise"; "Error"; "Date"; "globalThis"].

Definition module_names : list string :=
  ["express"; "bodyParser"; "fileURLToPath"; "dirname"; "join"; "spawn"; "fs";
   "os"; "__filename"; "__dirname"; "app"; "port"].

(** [async (req, res) => { let tmpDir = null; .. }] *)
Definition handler_names : list string := ["req"; "res"; "tmpDir"].

(** the [const]s of the [try] block *)
Definition try_names : list string :=
  ["html"; "options"; "htmlPath"; "pdfPath"; "decktapePath"; "chromePath";
   "chromeFlags"; "args"].

(** [(resolve, reject) => { const decktape = ..; let stderr = ""; let stdout = ""; .. }] *)
Definition executor_names : list string :=
  ["resolve"; "reject"; "decktape"; "stderr"; "stdout"].

(** [(error) => { .. }], the argument of [.catch] *)
Definition catch_names : list string := ["error"].

Definition enclosing_names : list string :=
  (try_names ++ handler_names ++ module_names ++ global_names)%list.

(** The names visible in the body of the promise executor and in the
    listeners it registers. *)
Definition executor_scope : list string :=
  (executor_names ++ enclosing_names)%list.

(** The names visible in the body of the rejection callback: it is written
    after the executor's closing brace, inside the [try] block. *)
Definition catch_scope : list string :=
  (catch_names ++ enclosing_names)%list.

Definition visible (scope : list string) (x : string) : bool :=
  existsb (String.eqb x) scope.

(** The part of an object literal the handler uses: a property is given by
    a value already computed or by the shorthand [{ x }], which reads the
    variable [x]. *)
Inductive expr : Type :=
| Lit (v : value)
| Ident (x : string).

(** Reading a variable: a [ReferenceError] when no enclosing scope declares
    it. [rho] gives the values of the variables that hold data (a binding of
    a function or of a host object has none). *)
Definition eval_expr (scope : list string) (rho : list (string * value))
    (e : expr) : error + value :=
  match e with
  | Lit v => inr v
  | Ident x =>
      if visible scope x then
        match assoc x rho with
        | Some v => inr v
        | None => inr VUndefined
        end
      else inl (ReferenceError (x ++ " is not defined"))
  end.

(** The properties of an object literal are evaluated in order. *)
Fixpoint eval_object (scope : list string) (rho : list (string * value))
    (props : list (string * expr)) : error + list (string * value) :=
  match props with
  | [] => inr []
  | (k, e) :: rest =>
      match eval_expr scope rho e with
      | inl err => inl err
      | inr v =>
          match eval_object scope rho rest with
          | inl err => inl err
          | inr fields => inr ((k, v) :: fields)
          end
      end
  end.

(* ================================================================== *)
(** ** The promise around the child process *)

(** The executor's [let stderr], [let stdout]; the promise built by
    [new Promise]; its rejection reaction while it waits for the next
    microtask checkpoint; the promise [.catch] returns. *)
Record promise_state : Type := {
  stderr : string;
  stdout : string;
  promise : settled;
  queued : option error;
  chained : settled
}.

Definition fresh : promise_state :=
  {| stderr := ""; stdout := ""; promise := Pending; queued := None;
     chained := Pending |}.

(** [reject(e)]: settles a pending promise and queues the reaction. *)
Definition reject (e : error) (p : promise_state) : promise_state :=
  match promise p with
  | Pending =>
      {| stderr := stderr p; stdout := stdout p; promise := Rejected e;
         queued := Some e; chained := chained p |}
  | _ => p
  end.

(** [resolve()]: [.catch] passes a fulfilment through. *)
Definition resolve (p : promise_state) : promise_state :=
  match promise p with
  | Pending =>
      {| stderr := stderr p; stdout := stdout p; promise := Fulfilled;
         queued := queued p; chained := Fulfilled |}
  | _ => p
  end.

(** [code !== 0] *)
Definition code_nonzero (code : option Z) : bool :=
  match code with
  | Some c => negb (Z.eqb c 0)
  | None => true
  end.

Section Promise.

Variable w : world.
(** the values of the handler's variables that hold data *)
Variable rho : list (string * value).
(** the handler's [pdfPath] *)
Variable pdf : string.

(** The callback given to [.catch]:
    [res.status(500).json({ error: "PDF conversion failed",
                            details: error.message, stdout, stderr })].
    [res.status(500)] is called before the argument of [.json] is
    evaluated. *)
Definition catch_callback (e : error) : M unit :=
  emit (Status 500) ;;
  body <- lift (eval_object catch_scope rho
                  [("error", Lit (VStr "PDF conversion failed"));
                   ("details", Lit (VStr (message e)));
                   ("stdout", Ident "stdout");
                   ("stderr", Ident "stderr")]) ;;
  emit (Json (VObj body)).

(** A microtask checkpoint (the current job has ended or has reached an
    [await]): a queued reaction runs, and settles the promise [.catch]
    returned. *)
Definition checkpoint (p : promise_state) : M promise_state :=
  match queued p with
  | None => ret p
  | Some e =>
      fun st =>
        let '(st', r) := catch_callback e st in
        (st', inr {| stderr := stderr p; stdout := stdout p;
                     promise := promise p; queued := None;
                     chained := match r with
                                | inr _ => Fulfilled
                                | inl e' => Rejected e'
                                end |})
  end.

(** [decktape.stderr.on("data", ..)] *)
Definition on_stderr (chunk : string) (p : promise_state) : promise_state :=
  {| stderr := stderr p ++ chunk; stdout := stdout p; promise := promise p;
     queued := queued p; chained := chained p |}.

(** [decktape.stdout.on("data", ..)] *)
Definition on_stdout (chunk : string) (p : promise_state) : promise_state :=
  {| stderr := stderr p; stdout := stdout p ++ chunk; promise := promise p;
     queued := queued p; chained := chained p |}.

(** [new Error(`Decktape failed: ${stderr || stdout}`)] *)
Definition decktape_failed (p : promise_state) : error :=
  Error ("Decktape failed: "
         ++ (if str_truthy (stderr p) then stderr p else stdout p)).

(** The [finally] block of the close listener; its [await] is a
    checkpoint, and so is the listener's end. *)
Definition close_finally (p : promise_state) : M promise_state :=
  cleanup w ;; checkpoint p.

(** [decktape.on("close", async (code) => { .. })] *)
Definition on_close (code : option Z) (p : promise_state) : M promise_state :=
  if code_nonzero code then
    close_finally (reject (decktape_failed p) p)
  else
    emit (ReadFile pdf) ;;
    p <- checkpoint p ;;
    match readFile_result w with
    | inr pdfBuffer =>
        emit (SetHeader "Content-Type" "application/pdf") ;;
        emit (SetHeader "Content-Disposition"
                "attachment; filename=presentation.pdf") ;;
        emit (Send pdfBuffer) ;;
        close_finally (resolve p)
    | inl e => close_finally (reject e p)
    end.

(** The listeners run in the order of the child's events, each followed by
    a checkpoint. ['close'] is the last event of a child. *)
Fixpoint deliver (events : list proc_event) (p : promise_state)
  : M promise_state :=
  match events with
  | [] => ret p
  | ev :: rest =>
      emit (Event ev) ;;
      match ev with
      | StderrData chunk =>
          p <- checkpoint (on_stderr chunk p) ;; deliver rest p
      | StdoutData chunk =>
          p <- checkpoint (on_stdout chunk p) ;; deliver rest p
      | ErrorEvent e =>
          p <- checkpoint (reject e p) ;; deliver rest p
      | CloseEvent code => on_close code p
      end
  end.

(** [new Promise((resolve, reject) => { const decktape = spawn("node", args); .. })
      .catch(..)]: an exception of the executor rejects the promise. The
    result is how the promise returned by [.catch] stands in the end. *)
Definition run_promise (args : list string) : M settled :=
  emit (Spawn "node" args) ;;
  p <- match spawn_result w with
       | inl e => checkpoint (reject e fresh)
       | inr events => p <- checkpoint fresh ;; deliver events p
       end ;;
  ret (chained p).

End Promise.

(* ================================================================== *)
(** ** The handler *)

(** [const { html, options = {} } = req.body]: the default applies to a
    missing ([undefined]) property only; a body that is [undefined] or
    [null] cannot be destructured (the message is V8's). *)
Definition destructure (body : value) : error + value * value :=
  match get body "html", get body "options" with
  | Some html, Some options =>
      inr (html, match options with
                 | VUndefined => VObj []
                 | _ => options
                 end)
  | _, _ =>
      inl (TypeError
             ("Cannot destructure property 'html' of 'req.body' as it is "
              ++ match body with
                 | VNull => "null."
                 | _ => "undefined."
                 end))
  end.

Definition validation_error : value :=
  VObj [("error", VStr "HTML content is required")].

Definition conversion_error (e : error) : value :=
  VObj [("error", VStr "PDF conversion failed"); ("details", VStr (message e))].

(** The values of the variables in scope after [args] is built. *)
Definition locals (cfg : config) (d : string) (html options : value)
    (args : list string) : list (string * value) :=
  [("tmpDir", VStr d); ("html", html); ("options", options);
   ("htmlPath", VStr (htmlPath cfg d)); ("pdfPath", VStr (pdfPath cfg d));
   ("decktapePath", VStr (decktapePath cfg));
   ("chromePath", VStr (chromePath cfg));
   ("chromeFlags", VArr (map VStr (chromeFlags cfg)));
   ("args", VArr (map VStr args))].

(** The body of the [try] block. *)
Definition convert_try (v : variant) (cfg : config) (w : world) (body : value)
  : M settled :=
  x <- lift (destructure body) ;;
  let '(html, options) := x in
  if negb (truthy html) then
    emit (Status 400) ;; emit (Json validation_error) ;; ret Fulfilled
  else
    d <- call (Mkdtemp (join cfg (tmpdir cfg) "decktape-")) (mkdtemp_result w) ;;
    set_tmpDir d ;;
    call (WriteFile (htmlPath cfg d) html) (writeFile_result w) ;;
    args <- lift (args_of v cfg d options) ;;
    run_promise w (locals cfg d html options args) (pdfPath cfg d) args.

(** [app.post("/convert", async (req, res) => { .. })] *)
Definition convert (v : variant) (cfg : config) (w : world) (body : value)
  : M settled :=
  try_catch (convert_try v cfg w body)
    (fun e =>
       emit (Status 500) ;; emit (Json (conversion_error e)) ;;
       cleanup w ;;
       ret Fulfilled).

(** One request from start to end: the calls issued, in order, and how the
    promise of the handler stands. *)
Definition handle (v : variant) (cfg : config) (w : world) (body : value)
  : list effect * settled :=
  match convert v cfg w body initial with
  | (st, inr r) => (trace st, r)
  | (st, inl e) => (trace st, Rejected e)
  end.

Definition calls (v : variant) (cfg : config) (w : world) (body : value)
  : list effect := fst (handle v cfg w body).

Definition outcome (v : variant) (cfg : config) (w : world) (body : value)
  : settled := snd (handle v cfg w body).

(** [app.get("/health", ..)] *)
Definition health : list effect := [Json (VObj [("status", VStr "ok")])].

(* ================================================================== *)
(** ** A concrete configuration and sample worlds *)

(** [path.join] on two normalized POSIX segments. *)
Definition posix_join (a b : string) : string := a ++ "/" ++ b.

Definition sample_config : config :=
  {| join := posix_join; __dirname := "/app"; tmpdir := "/tmp";
     CHROME_PATH := None; CHROME_FLAGS := None |}.

Definition pdf_bytes : list Byte.byte := [Byte.x25; Byte.x50; Byte.x44; Byte.x46].

(** Everything succeeds: the renderer writes to both streams and exits
    with code 0. *)
Definition world_ok : world :=
  {| mkdtemp_result := inr "/tmp/decktape-Ab12Cd";
     writeFile_result := inr tt;
     spawn_result := inr [StdoutData "Printing slide 1"; CloseEvent (Some 0%Z)];
     readFile_result := inr pdf_bytes;
     rm_result := inr tt |}.

(** The renderer exits with code 1 after writing to its error stream. *)
Definition world_exit1 : world :=
  {| mkdtemp_result := inr "/tmp/decktape-Ab12Cd";
     writeFile_result := inr tt;
     spawn_result := inr [StdoutData "Loading page"; StderrData "boom";
                          CloseEvent (Some 1%Z)];
     readFile_result := inl (Error "ENOENT: no such file or directory");
     rm_result := inr tt |}.

(** The renderer exits with code 0 but left no [output.pdf]. *)
Definition world_no_pdf : world :=
  {| mkdtemp_result := inr "/tmp/decktape-Ab12Cd";
     writeFile_result := inr tt;
     spawn_result := inr [CloseEvent (Some 0%Z)];
     readFile_result := inl (Error "ENOENT: no such file or directory");
     rm_result := inr tt |}.

(** [spawn] throws synchronously (an argument list the system refuses). *)
Definition world_spawn_throws : world :=
  {| mkdtemp_result := inr "/tmp/decktape-Ab12Cd";
     writeFile_result := inr tt;
     spawn_result := inl (Error "spawn E2BIG");
     readFile_result := inl (Error "ENOENT: no such file or directory");
     rm_result := inr tt |}.

Definition sample_body : value := VObj [("html", VStr "<h1>Hello</h1>")].

Definition sample_dir : string := "/tmp/decktape-Ab12Cd".

(** [CHROME_FLAGS] set to the empty string. *)
Definition config_empty_flags : config :=
  {| join := posix_join; __dirname := "/app"; tmpdir := "/tmp";
     CHROME_PATH := None; CHROME_FLAGS := Some "" |}.

(** [CHROME_FLAGS="--headless,--mute-audio,"] *)
Definition config_three_flags : config :=
  {| join := posix_join; __dirname := "/app"; tmpdir := "/tmp";
     CHROME_PATH := Some "/opt/chrome"; CHROME_FLAGS := Some "--headless,--mute-audio," |}.

Definition options_a4_pause2 : value :=
  VObj [("size", VStr "A4"); ("pause", VNum 2)].

Definition options_pause0 : value := VObj [("pause", VNum 0)].

(* ================================================================== *)
(** ** Vocabulary of the properties *)

(** [st] after the calls [l]. *)
Definition log (st : state) (l : list effect) : state :=
  {| trace := (trace st ++ l)%list; tmpDir := tmpDir st |}.

(** The calls of the cleanup block when [tmpDir] holds [t]. *)
Definition rm_calls (t : option string) : list effect :=
  match tmpDir_truthy t with
  | Some d => [Rm d]
  | None => []
  end.

Definition is_data (ev : proc_event) : bool :=
  match ev with
  | StderrData _ => true
  | StdoutData _ => true
  | _ => false
  end.

Definition is_close (ev : proc_event) : bool :=
  match ev with
  | CloseEvent _ => true
  | _ => false
  end.

(** The two buffers after the chunks of [data] have arrived. *)
Fixpoint absorb (data : list proc_event) (p : promise_state) : promise_state :=
  match data with
  | [] => p
  | StderrData chunk :: rest => absorb rest (on_stderr chunk p)
  | StdoutData chunk :: rest => absorb rest (on_stdout chunk p)
  | _ :: rest => absorb rest p
  end.

(** The text written to the error stream, and to the output stream. *)
Fixpoint stderr_text (data : list proc_event) : string :=
  match data with
  | [] => ""
  | StderrData chunk :: rest => chunk ++ stderr_text rest
  | _ :: rest => stderr_text rest
  end.

Fixpoint stdout_text (data : list proc_event) : string :=
  match data with
  | [] => ""
  | StdoutData chunk :: rest => chunk ++ stdout_text rest
  | _ :: rest => stdout_text rest
  end.

(** The request passes validation and staging: [html] is truthy, the
    directory [d] is created, [input.html] is written and the argument
    vector [args] is built. *)
Definition staged (v : variant) (cfg : config) (w : world) (body : value)
    (html options : value) (d : string) (args : list string) : Prop :=
  destructure body = inr (html, options) /\
  truthy html = true /\
  mkdtemp_result w = inr d /\
  writeFile_result w = inr tt /\
  args_of v cfg d options = inr args.

(** The calls of a request up to and including [spawn]. *)
Definition staging_calls (cfg : config) (d : string) (html : value)
    (args : list string) : list effect :=
  [Mkdtemp (join cfg (tmpdir cfg) "decktape-");
   WriteFile (htmlPath cfg d) html;
   Spawn "node" args].

(** A response body leaves the handler. *)
Definition is_body (e : effect) : bool :=
  match e with
  | Send _ => true
  | Json _ => true
  | _ => false
  end.

Definition is_spawn (e : effect) : bool :=
  match e with
  | Spawn _ _ => true
  | _ => false
  end.

(** The steps of section 4.1, as numbers: stage, spawn, wait, respond,
    cleanup. Validation issues no call of its own; its rejection is a
    response. *)
Definition phase (e : effect) : nat :=
  match e with
  | Mkdtemp _ => 1
  | WriteFile _ _ => 1
  | Spawn _ _ => 2
  | Event _ => 3
  | ReadFile _ => 4
  | Status _ => 4
  | Json _ => 4
  | SetHeader _ _ => 4
  | Send _ => 4
  | Rm _ => 5
  end.

(** No call of an earlier step follows a call of a later one. *)
Fixpoint in_sequence (l : list effect) : bool :=
  match l with
  | [] => true
  | e :: rest =>
      match rest with
      | [] => true
      | e' :: _ => Nat.leb (phase e) (phase e') && in_sequence rest
      end
  end.

(** The shapes of the calls issued from [spawn] on, when the cleanup block
    issues [rm] and the output path is [pdf]. *)
Inductive awaits (rm : list effect) (pdf : string) : list effect -> Prop :=
| aw_open : awaits rm pdf []
| aw_event ev l :
    is_close ev = false -> awaits rm pdf l -> awaits rm pdf (Event ev :: l)
| aw_error ev l :
    is_close ev = false -> awaits rm pdf l ->
    awaits rm pdf (Event ev :: Status 500 :: l)
| aw_failed code :
    awaits rm pdf (Event (CloseEvent code) :: rm)
| aw_failed_500 code :
    awaits rm pdf (Event (CloseEvent code) :: rm ++ [Status 500])%list
| aw_unreadable :
    awaits rm pdf (Event (CloseEvent (Some 0%Z)) :: ReadFile pdf :: rm)
| aw_unreadable_500 :
    awaits rm pdf
      (Event (CloseEvent (Some 0%Z)) :: ReadFile pdf :: rm ++ [Status 500])%list
| aw_sent buf :
    awaits rm pdf
      (Event (CloseEvent (Some 0%Z)) :: ReadFile pdf
       :: SetHeader "Content-Type" "application/pdf"
       :: SetHeader "Content-Disposition" "attachment; filename=presentation.pdf"
       :: Send buf :: rm).

(** The fixed part of the argument vector: entry point, browser path,
    browser flags, and the three positional arguments. *)
Definition fixed_args (cfg : config) (d : string) : list string :=
  ([decktapePath cfg; "--chrome-path"; chromePath cfg]
   ++ map chrome_arg (chromeFlags cfg)
   ++ ["generic"; file_uri (htmlPath cfg d); pdfPath cfg d])%list.

(** The specification's single handler (section 9): one argument builder
    with a boolean that selects whether the fixed navigation keys are added
    to the fixed part; the optional size and pause tokens follow. *)
Definition unified_args (navigation_keys : bool) (cfg : config) (d : string)
    (options : value) : error + list string :=
  match option_tokens options "size" with
  | inl e => inl e
  | inr size =>
      match option_tokens options "pause" with
      | inl e => inl e
      | inr pause =>
          inr (fixed_args cfg d
               ++ (if navigation_keys then key_tokens else [])
               ++ size ++ pause)%list
      end
  end.

Definition navigation_keys_of (v : variant) : bool :=
  match v with
  | ServerJs => true
  | Part000 => false
  end.

(** One token, [flag] followed by the text of [v], when [v] is truthy;
    nothing otherwise. *)
Definition tokens_for (flag : string) (v : value) (toks : list string) : Prop :=
  if truthy v then exists s, to_string v = Some s /\ toks = [flag ++ s]
  else toks = [].

(** The own property [k] is present in a parsed object. *)
Definition present (k : string) (options : value) : bool :=
  match options with
  | VObj fields =>
      match assoc k fields with
      | Some _ => true
      | None => false
      end
  | _ => false
  end.


Definition is_rm (e : effect) : bool :=
  match e with
  | Rm _ => true
  | _ => false
  end.

(** The character [c] occurs in [s]. *)
Fixpoint contains (c : ascii) (s : string) : bool :=
  match s with
  | EmptyString => false
  | String c' rest => Ascii.eqb c' c || contains c rest
  end.

(** The state in which the promise is built. *)
Definition staged_state (cfg : config) (d : string) (html : value) : state :=
  {| trace := [Mkdtemp (join cfg (tmpdir cfg) "decktape-");
               WriteFile (htmlPath cfg d) html];
     tmpDir := Some d |}.

Definition scope_error : error := ReferenceError "stdout is not defined".

(** The ways through the handler: the calls of a request and how the
    handler's promise stands in the end, by the answers of the world. *)
Inductive path (v : variant) (cfg : config) (w : world) (body : value)
  : list effect -> settled -> Prop :=
| path_no_body e :
    destructure body = inl e ->
    path v cfg w body [Status 500; Json (conversion_error e)] Fulfilled
| path_invalid html options :
    destructure body = inr (html, options) ->
    truthy html = false ->
    path v cfg w body [Status 400; Json validation_error] Fulfilled
| path_mkdtemp_fails html options e :
    destructure body = inr (html, options) ->
    truthy html = true ->
    mkdtemp_result w = inl e ->
    path v cfg w body
      [Mkdtemp (join cfg (tmpdir cfg) "decktape-"); Status 500;
       Json (conversion_error e)] Fulfilled
| path_write_fails html options d e :
    destructure body = inr (html, options) ->
    truthy html = true ->
    mkdtemp_result w = inr d ->
    writeFile_result w = inl e ->
    path v cfg w body
      ([Mkdtemp (join cfg (tmpdir cfg) "decktape-");
        WriteFile (htmlPath cfg d) html; Status 500; Json (conversion_error e)]
       ++ rm_calls (Some d))%list Fulfilled
| path_args_throw html options d e :
    destructure body = inr (html, options) ->
    truthy html = true ->
    mkdtemp_result w = inr d ->
    writeFile_result w = inr tt ->
    args_of v cfg d options = inl e ->
    path v cfg w body
      ([Mkdtemp (join cfg (tmpdir cfg) "decktape-");
        WriteFile (htmlPath cfg d) html; Status 500; Json (conversion_error e)]
       ++ rm_calls (Some d))%list Fulfilled
| path_spawn_throws html options d args e :
    staged v cfg w body html options d args ->
    spawn_result w = inl e ->
    path v cfg w body
      (staging_calls cfg d html args ++ [Status 500])%list (Rejected scope_error)
| path_spawned html options d args events l r :
    staged v cfg w body html options d args ->
    spawn_result w = inr events ->
    awaits (rm_calls (Some d)) (pdfPath cfg d) l ->
    path v cfg w body (staging_calls cfg d html args ++ l)%list r.

(* ================================================================== *)
(** ** The application of [server.js] *)

(** The first middleware of [server.js] sets these headers on every
    response. *)
Definition cors_headers : list (string * string) :=
  [("Access-Control-Allow-Origin", "*");
   ("Access-Control-Allow-Methods", "GET, POST, OPTIONS");
   ("Access-Control-Allow-Headers", "Content-Type, Authorization");
   ("Access-Control-Allow-Credentials", "true");
   ("Referrer-Policy", "no-referrer-when-downgrade")].

(** The route Express selects for a request that reaches the routes. *)
Inductive route : Type :=
| ToConvert     (* app.post("/convert", ..) *)
| ToHealth      (* app.get("/health", ..) *)
| Unrouted.

(** What answers a request: calls on [res], [res.sendStatus], or Express
    itself, when [bodyParser.json] passes an error on or no route matches. *)
Inductive answer : Type :=
| Call (e : effect)
| SendStatus (code : Z)
| ParserError (e : error)
| NoRoute.

(** A middleware takes the rest of the chain as [next]. The first one:
    five [res.setHeader], then [res.sendStatus(200)] for a preflight
    request and [next()] for the others. *)
Definition cors (method : string) (next : list answer) : list answer :=
  (map (fun h => Call (SetHeader (fst h) (snd h))) cors_headers
   ++ (if String.eqb method "OPTIONS" then [SendStatus 200] else next))%list.

(** [bodyParser.json(..)]: [parsed] is what it leaves in [req.body], or the
    error it passes to [next]. *)
Definition body_parser (parsed : error + value) (next : value -> list answer)
  : list answer :=
  match parsed with
  | inl e => [ParserError e]
  | inr body => next body
  end.

(** The logging middleware wraps [res.send] in a function that logs and
    calls the original, then calls [next()]. *)
Definition logging (next : list answer) : list answer := next.

Definition routes (v : variant) (cfg : config) (w : world) (r : route)
    (body : value) : list answer :=
  match r with
  | ToConvert => map Call (calls v cfg w body)
  | ToHealth => map Call health
  | Unrouted => [NoRoute]
  end.

(** [app.use(cors); app.use(bodyParser.json(..)); app.use(logging);
    app.post(..); app.get(..)] *)
Definition server_js_app (cfg : config) (w : world) (method : string)
    (r : route) (parsed : error + value) : list answer :=
  cors method
    (body_parser parsed (fun body => logging (routes ServerJs cfg w r body))).

(** The value a header has when the response leaves: the last one set.
    (Names are compared as written.) *)
Fixpoint header_of (name : string) (l : list answer) : option string :=
  match l with
  | [] => None
  | Call (SetHeader n x) :: rest =>
      match header_of name rest with
      | Some y => Some y
      | None => if String.eqb n name then Some x else None
      end
  | _ :: rest => header_of name rest
  end.

(* ================================================================== *)
(** ** More vocabulary and sample worlds *)

(** The world [w] with another answer to [fs.rm]. *)
Definition with_rm (w : world) (r : error + unit) : world :=
  {| mkdtemp_result := mkdtemp_result w;
     writeFile_result := writeFile_result w;
     spawn_result := spawn_result w;
     readFile_result := readFile_result w;
     rm_result := r |}.

(** A call with the argument vector of [spawn] left out. *)
Definition strip_args (e : effect) : effect :=
  match e with
  | Spawn command _ => Spawn command []
  | _ => e
  end.

(** The ways the handler's promise can stand. *)
Definition plain_outcome (r : settled) : Prop :=
  r = Pending \/ r = Fulfilled \/ r = Rejected scope_error.

Definition is_mkdtemp (e : effect) : bool :=
  match e with
  | Mkdtemp _ => true
  | _ => false
  end.

Definition is_write (e : effect) : bool :=
  match e with
  | WriteFile _ _ => true
  | _ => false
  end.

Definition is_read (e : effect) : bool :=
  match e with
  | ReadFile _ => true
  | _ => false
  end.

(** How many of the calls satisfy [f]. *)
Definition count (f : effect -> bool) (l : list effect) : nat :=
  length (filter f l).







(** The temporary directory cannot be created. *)
Definition world_mkdtemp_fails : world :=
  {| mkdtemp_result := inl (Error "ENOSPC: no space left on device");
     writeFile_result := inr tt;
     spawn_result := inr [CloseEvent (Some 0%Z)];
     readFile_result := inr pdf_bytes;
     rm_result := inr tt |}.

(** [input.html] cannot be written. *)
Definition world_write_fails : world :=
  {| mkdtemp_result := inr "/tmp/decktape-Ab12Cd";
     writeFile_result := inl (Error "ENOSPC: no space left on device");
     spawn_result := inr [CloseEvent (Some 0%Z)];
     readFile_result := inr pdf_bytes;
     rm_result := inr tt |}.

(** The renderer writes a line and never ends. *)
Definition world_hang : world :=
  {| mkdtemp_result := inr "/tmp/decktape-Ab12Cd";
     writeFile_result := inr tt;
     spawn_result := inr [StdoutData "Loading page"];
     readFile_result := inl (Error "ENOENT: no such file or directory");
     rm_result := inr tt |}.

(** [node] is not found: ['error'], then ['close'] with a negative code. *)
Definition world_enoent : world :=
  {| mkdtemp_result := inr "/tmp/decktape-Ab12Cd";
     writeFile_result := inr tt;
     spawn_result := inr [ErrorEvent (Error "spawn node ENOENT");
                          CloseEvent (Some (-2)%Z)];
     readFile_result := inl (Error "ENOENT: no such file or directory");
     rm_result := inr tt |}.

Definition body_null_options : value :=
  VObj [("html", VStr "<h1>Hello</h1>"); ("options", VNull)].

(* ================================================================== *)
(** ** Running the monad *)

Lemma log_nil (st : state) : log st [] = st.
Proof. destruct st; unfold log; simpl; now rewrite app_nil_r. Qed.

Lemma log_log (st : state) (a b : list effect) :
  log (log st a) b = log st (a ++ b).
Proof. unfold log; simpl; now rewrite app_assoc. Qed.

Lemma tmpDir_log (st : state) (l : list effect) : tmpDir (log st l) = tmpDir st.
Proof. reflexivity. Qed.

Lemma trace_log (st : state) (l : list effect) :
  trace (log st l) = (trace st ++ l)%list.
Proof. reflexivity. Qed.

Lemma emit_run (e : effect) (st : state) : emit e st = (log st [e], inr tt).
Proof. reflexivity. Qed.

Lemma bind_run {A B : Type} [m : M A] (k : A -> M B) [st st' : state] [a : A] :
  m st = (st', inr a) -> bind m k st = k a st'.
Proof. intros H; unfold bind; now rewrite H. Qed.

Lemma bind_throw {A B : Type} [m : M A] (k : A -> M B) [st st' : state]
    [e : error] :
  m st = (st', inl e) -> bind m k st = (st', inl e).
Proof. intros H; unfold bind; now rewrite H. Qed.

Lemma call_run {A : Type} (e : effect) (r : error + A) (st : state) :
  call e r st = (log st [e], r).
Proof. unfold call, bind, lift; rewrite emit_run; reflexivity. Qed.

(** The cleanup block issues [rm] on a truthy [tmpDir] and never throws. *)
Lemma cleanup_run (w : world) (st : state) :
  cleanup w st = (log st (rm_calls (tmpDir st)), inr tt).
Proof.
  unfold cleanup, rm_calls, bind, get_tmpDir.
  destruct (tmpDir_truthy (tmpDir st)) as [d|].
  - unfold try_catch; rewrite call_run.
    destruct (rm_result w) as [e|[]]; reflexivity.
  - unfold ret; now rewrite log_nil.
Qed.

(** The scopes: the two buffers belong to the executor, and the rejection
    callback does not see them. *)
Lemma buffers_in_executor_scope :
  visible executor_scope "stdout" = true /\ visible executor_scope "stderr" = true.
Proof. split; reflexivity. Qed.

Lemma buffers_not_in_catch_scope :
  visible catch_scope "stdout" = false /\ visible catch_scope "stderr" = false.
Proof. split; reflexivity. Qed.

(** The rejection callback sets the status and then throws: the argument of
    [.json] cannot be evaluated. *)
Lemma catch_callback_run (rho : list (string * value)) (e : error) (st : state) :
  catch_callback rho e st
  = (log st [Status 500], inl scope_error).
Proof. reflexivity. Qed.

Lemma checkpoint_idle (rho : list (string * value)) [p : promise_state]
    (st : state) :
  queued p = None -> checkpoint rho p st = (st, inr p).
Proof. intros H; unfold checkpoint; now rewrite H. Qed.

Lemma checkpoint_queued (rho : list (string * value)) [p : promise_state]
    [e : error] (st : state) :
  queued p = Some e ->
  checkpoint rho p st
  = (log st [Status 500],
     inr {| stderr := stderr p; stdout := stdout p; promise := promise p;
            queued := None;
            chained := Rejected scope_error |}).
Proof. intros H; unfold checkpoint; rewrite H, catch_callback_run; reflexivity. Qed.

(** After a checkpoint nothing is queued; it logs nothing or the status. *)
Lemma checkpoint_cases (rho : list (string * value)) (p : promise_state)
    (st : state) :
  exists l p',
    checkpoint rho p st = (log st l, inr p') /\ queued p' = None /\
    stderr p' = stderr p /\ stdout p' = stdout p /\
    ((l = [] /\ queued p = None /\ p' = p) \/
     (l = [Status 500] /\ queued p <> None)).
Proof.
  destruct (queued p) as [e|] eqn:Q.
  - eexists _, _; rewrite (checkpoint_queued rho st Q); simpl.
    repeat split; right; split; [reflexivity | discriminate].
  - exists [], p; rewrite (checkpoint_idle rho st Q), log_nil.
    repeat split; auto.
Qed.

Lemma queued_resolve (p : promise_state) : queued (resolve p) = queued p.
Proof. unfold resolve; destruct (promise p); reflexivity. Qed.

Lemma queued_on_stderr (c : string) (p : promise_state) :
  queued (on_stderr c p) = queued p.
Proof. reflexivity. Qed.

Lemma queued_on_stdout (c : string) (p : promise_state) :
  queued (on_stdout c p) = queued p.
Proof. reflexivity. Qed.

(** The [finally] block of the close listener. *)
Lemma close_finally_run (w : world) (rho : list (string * value))
    (p : promise_state) (st : state) :
  exists opt p',
    close_finally w rho p st = (log st (rm_calls (tmpDir st) ++ opt), inr p') /\
    queued p' = None /\
    ((opt = [] /\ queued p = None /\ p' = p) \/
     (opt = [Status 500] /\ queued p <> None)).
Proof.
  unfold close_finally.
  destruct (checkpoint_cases rho p (log st (rm_calls (tmpDir st))))
    as (l & p' & E & Q & _ & _ & C).
  exists l, p'; split; [|split; auto].
  rewrite (bind_run _ (cleanup_run _ _)).
  now rewrite E, log_log.
Qed.

(* ================================================================== *)
(** ** The waiting phase *)

Lemma reject_pending (e : error) (p : promise_state) :
  promise p = Pending ->
  reject e p = {| stderr := stderr p; stdout := stdout p; promise := Rejected e;
                  queued := Some e; chained := chained p |}.
Proof. intros H; unfold reject; now rewrite H. Qed.

Lemma reject_queued (e : error) (p : promise_state) :
  queued p = None -> reject e p = p \/ queued (reject e p) = Some e.
Proof.
  intros _; unfold reject; destruct (promise p); auto.
Qed.

(** The close listener, whatever the exit code and the state of the
    promise: its calls have one of the shapes of [awaits]. *)
Lemma on_close_awaits (w : world) (rho : list (string * value)) (pdf : string)
    (code : option Z) (p : promise_state) (st : state) :
  queued p = None ->
  exists l p',
    on_close w rho pdf code p st = (log st l, inr p') /\
    awaits (rm_calls (tmpDir st)) pdf (Event (CloseEvent code) :: l).
Proof.
  intros Q; unfold on_close.
  destruct (code_nonzero code) eqn:NZ.
  - destruct (close_finally_run w rho (reject (decktape_failed p) p) st)
      as (opt & p' & E & _ & [(-> & _)|(-> & _)]);
      eexists _, p'; (split; [exact E|]).
    + rewrite app_nil_r; apply aw_failed.
    + apply aw_failed_500.
  - assert (code = Some 0%Z) as ->.
    { destruct code as [c|]; [|discriminate]; simpl in NZ.
      apply negb_false_iff, Z.eqb_eq in NZ; now subst. }
    rewrite (bind_run _ (emit_run _ _)).
    rewrite (bind_run _ (checkpoint_idle rho _ Q)).
    destruct (readFile_result w) as [e|buf].
    + destruct (close_finally_run w rho (reject e p)
                  (log st [ReadFile pdf]))
        as (opt & p' & E & _ & [(-> & _)|(-> & _)]);
        rewrite E, log_log, tmpDir_log; eexists _, p'; (split; [reflexivity|]).
      * rewrite app_nil_r; simpl; apply aw_unreadable.
      * simpl; apply aw_unreadable_500.
    + do 3 rewrite (bind_run _ (emit_run _ _)).
      destruct (close_finally_run w rho (resolve p)
                  (log (log (log (log st [ReadFile pdf])
                     [SetHeader "Content-Type" "application/pdf"])
                     [SetHeader "Content-Disposition"
                        "attachment; filename=presentation.pdf"])
                     [Send buf]))
        as (opt & p' & E & _ & [(-> & _)|(-> & C)]).
      * rewrite E, !log_log, !tmpDir_log, app_nil_r.
        eexists _, p'; split; [reflexivity|]; simpl; apply aw_sent.
      * rewrite queued_resolve, Q in C; now elim C.
Qed.

(** Every run of the listeners has one of the shapes of [awaits]. *)
Lemma deliver_awaits (w : world) (rho : list (string * value)) (pdf : string)
    (events : list proc_event) :
  forall (p : promise_state) (st : state),
    queued p = None ->
    exists l p',
      deliver w rho pdf events p st = (log st l, inr p') /\
      awaits (rm_calls (tmpDir st)) pdf l.
Proof.
  induction events as [|ev rest IH]; intros p st Q.
  - exists [], p; simpl; unfold ret; rewrite log_nil; split;
      [reflexivity | apply aw_open].
  - simpl; rewrite (bind_run _ (emit_run _ _)).
    destruct ev as [chunk|chunk|e|code].
    + rewrite (bind_run _ (checkpoint_idle rho (p := on_stderr chunk p) _ Q)).
      destruct (IH (on_stderr chunk p) (log st [Event (StderrData chunk)]) Q)
        as (l & p' & E & A).
      rewrite E, log_log; eexists _, p'; split; [reflexivity|].
      simpl; now apply aw_event.
    + rewrite (bind_run _ (checkpoint_idle rho (p := on_stdout chunk p) _ Q)).
      destruct (IH (on_stdout chunk p) (log st [Event (StdoutData chunk)]) Q)
        as (l & p' & E & A).
      rewrite E, log_log; eexists _, p'; split; [reflexivity|].
      simpl; now apply aw_event.
    + destruct (checkpoint_cases rho (reject e p) (log st [Event (ErrorEvent e)]))
        as (l0 & p0 & E0 & Q0 & _ & _ & C).
      rewrite (bind_run _ E0).
      destruct (IH p0 (log (log st [Event (ErrorEvent e)]) l0) Q0)
        as (l & p' & E & A).
      rewrite E, !log_log; eexists _, p'; split; [reflexivity|].
      destruct C as [(-> & _)|(-> & _)]; simpl;
        [now apply aw_event | now apply aw_error].
    + destruct (on_close_awaits w rho pdf code p
                  (log st [Event (CloseEvent code)]) Q) as (l & p' & E & A).
      rewrite E, log_log; eexists _, p'; split; [reflexivity|exact A].
Qed.

Lemma absorb_queued (data : list proc_event) :
  forall p, queued (absorb data p) = queued p.
Proof.
  induction data as [|[c|c|e|code] rest IH]; intros p; simpl; auto;
    now rewrite IH.
Qed.

Lemma absorb_promise (data : list proc_event) :
  forall p, promise (absorb data p) = promise p.
Proof.
  induction data as [|[c|c|e|code] rest IH]; intros p; simpl; auto;
    now rewrite IH.
Qed.

Lemma absorb_chained (data : list proc_event) :
  forall p, chained (absorb data p) = chained p.
Proof.
  induction data as [|[c|c|e|code] rest IH]; intros p; simpl; auto;
    now rewrite IH.
Qed.

(** The buffers hold the chunks of each stream, in order of arrival. *)
Lemma absorb_stderr (data : list proc_event) :
  forall p, stderr (absorb data p) = stderr p ++ stderr_text data.
Proof.
  induction data as [|[c|c|e|code] rest IH]; intros p; simpl;
    try (rewrite IH; simpl); auto.
  - clear; induction (stderr p); simpl; congruence.
  - clear IH; generalize (stderr_text rest) as t; intros t.
    induction (stderr p); simpl; congruence.
Qed.

Lemma absorb_stdout (data : list proc_event) :
  forall p, stdout (absorb data p) = stdout p ++ stdout_text data.
Proof.
  induction data as [|[c|c|e|code] rest IH]; intros p; simpl;
    try (rewrite IH; simpl); auto.
  - clear; induction (stdout p); simpl; congruence.
  - clear IH; generalize (stdout_text rest) as t; intros t.
    induction (stdout p); simpl; congruence.
Qed.

(** Chunks only fill the buffers. *)
Lemma deliver_data (w : world) (rho : list (string * value)) (pdf : string)
    (data rest : list proc_event) :
  forall (p : promise_state) (st : state),
    forallb is_data data = true ->
    queued p = None ->
    deliver w rho pdf (data ++ rest) p st
    = deliver w rho pdf rest (absorb data p) (log st (map Event data)).
Proof.
  induction data as [|ev data IH]; intros p st D Q.
  - simpl; now rewrite log_nil.
  - simpl in D; apply andb_true_iff in D as [D1 D2].
    destruct ev as [chunk|chunk|e|code]; try discriminate;
      cbn [app deliver absorb map];
      rewrite (bind_run _ (emit_run _ _)).
    + rewrite (bind_run _ (checkpoint_idle rho (p := on_stderr chunk p) _ Q)).
      rewrite IH by auto; now rewrite log_log.
    + rewrite (bind_run _ (checkpoint_idle rho (p := on_stdout chunk p) _ Q)).
      rewrite IH by auto; now rewrite log_log.
Qed.

(* ================================================================== *)
(** ** The handler, path by path *)

Lemma run_promise_spawn_throws (w : world) (rho : list (string * value))
    (pdf : string) (args : list string) (e : error) (st : state) :
  spawn_result w = inl e ->
  run_promise w rho pdf args st
  = (log st [Spawn "node" args; Status 500], inr (Rejected scope_error)).
Proof.
  intros S; unfold run_promise.
  rewrite (bind_run _ (emit_run _ _)), S.
  rewrite (bind_run _ (checkpoint_queued rho (p := reject e fresh) _ eq_refl)).
  unfold ret; rewrite log_log; reflexivity.
Qed.

Lemma run_promise_spawned (w : world) (rho : list (string * value))
    (pdf : string) (args : list string) (events : list proc_event) (st : state) :
  spawn_result w = inr events ->
  exists p,
    deliver w rho pdf events fresh (log st [Spawn "node" args])
    = (fst (deliver w rho pdf events fresh (log st [Spawn "node" args])), inr p)
    /\ run_promise w rho pdf args st
       = (fst (deliver w rho pdf events fresh (log st [Spawn "node" args])),
          inr (chained p)).
Proof.
  intros S.
  destruct (deliver_awaits w rho pdf events fresh (log st [Spawn "node" args])
              eq_refl) as (l & p & E & _).
  exists p; rewrite E; split; [reflexivity|].
  unfold run_promise.
  rewrite (bind_run _ (emit_run _ _)), S.
  assert ((p0 <- checkpoint rho fresh ;; deliver w rho pdf events p0)
            (log st [Spawn "node" args]) = (log (log st [Spawn "node" args]) l, inr p))
    as I.
  { rewrite (bind_run _ (checkpoint_idle rho (p := fresh) _ eq_refl)); exact E. }
  rewrite (bind_run _ I); reflexivity.
Qed.

Lemma convert_try_staged (v : variant) (cfg : config) (w : world) (body : value)
    (html options : value) (d : string) (args : list string) :
  staged v cfg w body html options d args ->
  convert_try v cfg w body initial
  = run_promise w (locals cfg d html options args) (pdfPath cfg d) args
      (staged_state cfg d html).
Proof.
  intros (D & T & MK & WR & AR).
  unfold convert_try.
  unfold bind at 1, lift at 1; rewrite D, T.
  change (negb true) with false; cbv iota.
  assert (call (Mkdtemp (join cfg (tmpdir cfg) "decktape-")) (mkdtemp_result w)
            initial
          = (log initial [Mkdtemp (join cfg (tmpdir cfg) "decktape-")], inr d))
    as C1 by (rewrite call_run, MK; reflexivity).
  rewrite (bind_run _ C1).
  unfold bind at 1, set_tmpDir at 1.
  match goal with
  | |- bind (call ?e ?r) _ ?st = _ =>
      assert (call e r st = (log st [e], inr tt)) as C2
        by (rewrite call_run, WR; reflexivity)
  end.
  rewrite (bind_run _ C2).
  unfold bind at 1, lift at 1; rewrite AR.
  reflexivity.
Qed.

Lemma run_promise_total (w : world) (rho : list (string * value)) (pdf : string)
    (args : list string) (st : state) :
  exists l r,
    run_promise w rho pdf args st = (log st (Spawn "node" args :: l), inr r) /\
    ((exists e, spawn_result w = inl e /\ l = [Status 500]
                /\ r = Rejected scope_error) \/
     (exists events, spawn_result w = inr events
                     /\ awaits (rm_calls (tmpDir st)) pdf l)).
Proof.
  destruct (spawn_result w) as [e|events] eqn:S.
  - exists [Status 500], (Rejected scope_error); split.
    + now apply run_promise_spawn_throws with (e := e).
    + left; now exists e.
  - destruct (run_promise_spawned w rho pdf args events st S) as (p & _ & R).
    destruct (deliver_awaits w rho pdf events fresh (log st [Spawn "node" args])
                eq_refl) as (l & p' & E & A).
    exists l, (chained p); split.
    + rewrite R, E; simpl; now rewrite log_log.
    + right; now exists events.
Qed.

Lemma handle_staged (v : variant) (cfg : config) (w : world) (body : value)
    (html options : value) (d : string) (args : list string)
    (l : list effect) (r : settled) :
  staged v cfg w body html options d args ->
  run_promise w (locals cfg d html options args) (pdfPath cfg d) args
    (staged_state cfg d html)
  = (log (staged_state cfg d html) (Spawn "node" args :: l), inr r) ->
  handle v cfg w body = ((staging_calls cfg d html args ++ l)%list, r).
Proof.
  intros S R; unfold handle, convert, try_catch.
  rewrite (convert_try_staged _ _ _ _ _ _ _ _ S), R; reflexivity.
Qed.

(** Every request takes one of the ways of [path]. *)
Lemma handle_path (v : variant) (cfg : config) (w : world) (body : value) :
  path v cfg w body (calls v cfg w body) (outcome v cfg w body).
Proof.
  unfold calls, outcome.
  destruct (destructure body) as [e|[html options]] eqn:D.
  { replace (handle v cfg w body)
      with ([Status 500; Json (conversion_error e)], Fulfilled).
    - now apply path_no_body.
    - unfold handle, convert, try_catch, convert_try, bind at 1, lift at 1.
      rewrite D; reflexivity. }
  destruct (truthy html) eqn:T.
  2:{ replace (handle v cfg w body)
        with ([Status 400; Json validation_error], Fulfilled).
      - now apply path_invalid with (html := html) (options := options).
      - unfold handle, convert, try_catch, convert_try, bind at 1, lift at 1.
        rewrite D, T; reflexivity. }
  destruct (mkdtemp_result w) as [e|d] eqn:MK.
  { replace (handle v cfg w body)
      with ([Mkdtemp (join cfg (tmpdir cfg) "decktape-"); Status 500;
             Json (conversion_error e)], Fulfilled).
    - now apply path_mkdtemp_fails with (html := html) (options := options).
    - unfold handle, convert, try_catch, convert_try, bind at 1, lift at 1.
      rewrite D, T; change (negb true) with false; cbv iota.
      unfold bind at 1; rewrite call_run, MK; reflexivity. }
  destruct (writeFile_result w) as [e|[]] eqn:WR.
  { replace (handle v cfg w body)
      with (([Mkdtemp (join cfg (tmpdir cfg) "decktape-");
              WriteFile (htmlPath cfg d) html; Status 500;
              Json (conversion_error e)] ++ rm_calls (Some d))%list, Fulfilled).
    - now apply path_write_fails with (options := options).
    - unfold handle, convert, try_catch, convert_try, bind at 1, lift at 1.
      rewrite D, T; change (negb true) with false; cbv iota.
      unfold bind at 1; rewrite call_run, MK.
      unfold bind at 1, set_tmpDir at 1.
      unfold bind at 1; rewrite call_run, WR.
      do 2 rewrite (bind_run _ (emit_run _ _)).
      rewrite (bind_run _ (cleanup_run _ _)); reflexivity. }
  destruct (args_of v cfg d options) as [e|args] eqn:AR.
  { replace (handle v cfg w body)
      with (([Mkdtemp (join cfg (tmpdir cfg) "decktape-");
              WriteFile (htmlPath cfg d) html; Status 500;
              Json (conversion_error e)] ++ rm_calls (Some d))%list, Fulfilled).
    - now apply path_args_throw with (options := options).
    - unfold handle, convert, try_catch, convert_try, bind at 1, lift at 1.
      rewrite D, T; change (negb true) with false; cbv iota.
      unfold bind at 1; rewrite call_run, MK.
      unfold bind at 1, set_tmpDir at 1.
      unfold bind at 1; rewrite call_run, WR.
      unfold bind at 1, lift at 1; rewrite AR.
      do 2 rewrite (bind_run _ (emit_run _ _)).
      rewrite (bind_run _ (cleanup_run _ _)); reflexivity. }
  assert (staged v cfg w body html options d args) as S
    by (unfold staged; auto).
  destruct (run_promise_total w (locals cfg d html options args) (pdfPath cfg d)
              args (staged_state cfg d html)) as (l & r & R & C).
  rewrite (handle_staged _ _ _ _ _ _ _ _ _ _ S R); simpl fst; simpl snd.
  destruct C as [(e & SP & -> & ->)|(events & SP & A)].
  - now apply path_spawn_throws with (options := options) (e := e).
  - now apply path_spawned with (options := options) (events := events).
Qed.

(** A child that closes with a non-zero code. *)
Lemma on_close_nonzero (w : world) (rho : list (string * value)) (pdf : string)
    (code : option Z) (p : promise_state) (st : state) :
  code_nonzero code = true ->
  promise p = Pending ->
  exists p',
    on_close w rho pdf code p st
    = (log st (rm_calls (tmpDir st) ++ [Status 500]), inr p') /\
    chained p' = Rejected scope_error.
Proof.
  intros NZ P; unfold on_close, close_finally; rewrite NZ.
  rewrite (bind_run _ (cleanup_run _ _)).
  rewrite (checkpoint_queued rho (p := reject (decktape_failed p) p)
             (e := decktape_failed p) _);
    [|now rewrite (reject_pending _ _ P)].
  rewrite log_log; eexists; split; reflexivity.
Qed.

(** A child that closes with code 0 and left a readable [output.pdf]. *)
Lemma on_close_sent (w : world) (rho : list (string * value)) (pdf : string)
    (buf : list Byte.byte) (p : promise_state) (st : state) :
  readFile_result w = inr buf ->
  promise p = Pending ->
  queued p = None ->
  exists p',
    on_close w rho pdf (Some 0%Z) p st
    = (log st ([ReadFile pdf;
                SetHeader "Content-Type" "application/pdf";
                SetHeader "Content-Disposition"
                  "attachment; filename=presentation.pdf";
                Send buf] ++ rm_calls (tmpDir st)), inr p') /\
    chained p' = Fulfilled.
Proof.
  intros RF P Q; unfold on_close, close_finally.
  change (code_nonzero (Some 0%Z)) with false; cbv iota.
  rewrite (bind_run _ (emit_run _ _)).
  rewrite (bind_run _ (checkpoint_idle rho _ Q)), RF.
  do 3 rewrite (bind_run _ (emit_run _ _)).
  rewrite (bind_run _ (cleanup_run _ _)).
  rewrite (checkpoint_idle rho (p := resolve p) _)
    by now rewrite queued_resolve.
  rewrite !log_log, !tmpDir_log; simpl app.
  eexists; split; [reflexivity|].
  unfold resolve; now rewrite P.
Qed.

(** A child that closes with code 0 without a readable [output.pdf]. *)
Lemma on_close_unreadable (w : world) (rho : list (string * value))
    (pdf : string) (e : error) (p : promise_state) (st : state) :
  readFile_result w = inl e ->
  promise p = Pending ->
  queued p = None ->
  exists p',
    on_close w rho pdf (Some 0%Z) p st
    = (log st (ReadFile pdf :: rm_calls (tmpDir st) ++ [Status 500]), inr p') /\
    chained p' = Rejected scope_error.
Proof.
  intros RF P Q; unfold on_close, close_finally.
  change (code_nonzero (Some 0%Z)) with false; cbv iota.
  rewrite (bind_run _ (emit_run _ _)).
  rewrite (bind_run _ (checkpoint_idle rho _ Q)), RF.
  rewrite (bind_run _ (cleanup_run _ _)).
  rewrite (checkpoint_queued rho (p := reject e p) (e := e) _);
    [|now rewrite (reject_pending _ _ P)].
  rewrite !log_log, !tmpDir_log; simpl app.
  eexists; split; reflexivity.
Qed.

(** A child that sends chunks and then closes: the close listener runs with
    the buffers filled and the promise pending. *)
Lemma run_promise_close (w : world) (rho : list (string * value)) (pdf : string)
    (args : list string) (data rest : list proc_event) (code : option Z)
    (st : state) (l : list effect) (p' : promise_state) :
  spawn_result w = inr (data ++ CloseEvent code :: rest)%list ->
  forallb is_data data = true ->
  on_close w rho pdf code (absorb data fresh)
    (log st (Spawn "node" args :: map Event data ++ [Event (CloseEvent code)]))
  = (log (log st (Spawn "node" args :: map Event data
                  ++ [Event (CloseEvent code)])) l, inr p') ->
  run_promise w rho pdf args st
  = (log st (Spawn "node" args :: map Event data
             ++ Event (CloseEvent code) :: l), inr (chained p')).
Proof.
  intros S D C.
  destruct (run_promise_spawned w rho pdf args _ st S) as (p & E & R).
  rewrite R; clear R.
  rewrite deliver_data in E |- * by auto.
  cbn [deliver] in E |- *.
  rewrite (bind_run _ (emit_run _ _)) in E |- *.
  rewrite !log_log in E |- *.
  replace ([Spawn "node" args] ++ map Event data ++ [Event (CloseEvent code)])%list
    with (Spawn "node" args :: map Event data ++ [Event (CloseEvent code)])%list
    in E |- * by reflexivity.
  rewrite C in E |- *; simpl fst in *.
  rewrite log_log.
  replace ((Spawn "node" args :: map Event data ++ [Event (CloseEvent code)]) ++ l)%list
    with (Spawn "node" args :: map Event data ++ Event (CloseEvent code) :: l)%list
    by (simpl; now rewrite <- app_assoc).
  congruence.
Qed.

Lemma absorb_fresh_pending (data : list proc_event) :
  promise (absorb data fresh) = Pending /\ queued (absorb data fresh) = None.
Proof. now rewrite absorb_promise, absorb_queued. Qed.

Lemma handle_nonzero (v : variant) (cfg : config) (w : world) (body : value)
    (html options : value) (d : string) (args : list string)
    (data rest : list proc_event) (code : option Z) :
  staged v cfg w body html options d args ->
  spawn_result w = inr (data ++ CloseEvent code :: rest)%list ->
  forallb is_data data = true ->
  code_nonzero code = true ->
  handle v cfg w body
  = ((staging_calls cfg d html args ++ map Event data
      ++ Event (CloseEvent code) :: rm_calls (Some d) ++ [Status 500])%list,
     Rejected scope_error).
Proof.
  intros S SP D NZ.
  destruct (absorb_fresh_pending data) as (P & _).
  destruct (on_close_nonzero w (locals cfg d html options args) (pdfPath cfg d)
              code (absorb data fresh)
              (log (staged_state cfg d html)
                 (Spawn "node" args :: map Event data ++ [Event (CloseEvent code)]))
              NZ P) as (p' & C & CH).
  rewrite <- CH.
  apply (handle_staged _ _ _ _ _ _ _ _ _ _ S).
  now apply run_promise_close with (rest := rest).
Qed.

Lemma handle_sent (v : variant) (cfg : config) (w : world) (body : value)
    (html options : value) (d : string) (args : list string)
    (data rest : list proc_event) (buf : list Byte.byte) :
  staged v cfg w body html options d args ->
  spawn_result w = inr (data ++ CloseEvent (Some 0%Z) :: rest)%list ->
  forallb is_data data = true ->
  readFile_result w = inr buf ->
  handle v cfg w body
  = ((staging_calls cfg d html args ++ map Event data
      ++ Event (CloseEvent (Some 0%Z))
         :: [ReadFile (pdfPath cfg d);
             SetHeader "Content-Type" "application/pdf";
             SetHeader "Content-Disposition"
               "attachment; filename=presentation.pdf";
             Send buf] ++ rm_calls (Some d))%list,
     Fulfilled).
Proof.
  intros S SP D RF.
  destruct (absorb_fresh_pending data) as (P & Q).
  destruct (on_close_sent w (locals cfg d html options args) (pdfPath cfg d)
              buf (absorb data fresh)
              (log (staged_state cfg d html)
                 (Spawn "node" args :: map Event data
                  ++ [Event (CloseEvent (Some 0%Z))]))
              RF P Q) as (p' & C & CH).
  rewrite <- CH.
  apply (handle_staged _ _ _ _ _ _ _ _ _ _ S).
  now apply run_promise_close with (rest := rest).
Qed.

Lemma handle_unreadable (v : variant) (cfg : config) (w : world) (body : value)
    (html options : value) (d : string) (args : list string)
    (data rest : list proc_event) (e : error) :
  staged v cfg w body html options d args ->
  spawn_result w = inr (data ++ CloseEvent (Some 0%Z) :: rest)%list ->
  forallb is_data data = true ->
  readFile_result w = inl e ->
  handle v cfg w body
  = ((staging_calls cfg d html args ++ map Event data
      ++ Event (CloseEvent (Some 0%Z))
         :: ReadFile (pdfPath cfg d) :: rm_calls (Some d) ++ [Status 500])%list,
     Rejected scope_error).
Proof.
  intros S SP D RF.
  destruct (absorb_fresh_pending data) as (P & Q).
  destruct (on_close_unreadable w (locals cfg d html options args)
              (pdfPath cfg d) e (absorb data fresh)
              (log (staged_state cfg d html)
                 (Spawn "node" args :: map Event data
                  ++ [Event (CloseEvent (Some 0%Z))]))
              RF P Q) as (p' & C & CH).
  rewrite <- CH.
  apply (handle_staged _ _ _ _ _ _ _ _ _ _ S).
  now apply run_promise_close with (rest := rest).
Qed.

Lemma handle_spawn_throws (v : variant) (cfg : config) (w : world)
    (body : value) (html options : value) (d : string) (args : list string)
    (e : error) :
  staged v cfg w body html options d args ->
  spawn_result w = inl e ->
  handle v cfg w body
  = ((staging_calls cfg d html args ++ [Status 500])%list, Rejected scope_error).
Proof.
  intros S SP.
  apply (handle_staged _ _ _ _ _ _ _ _ _ _ S).
  now apply run_promise_spawn_throws with (e := e).
Qed.

(* ================================================================== *)
(** ** What the shapes of the waiting phase imply *)

Lemma rm_calls_are_rm (t : option string) :
  Forall (fun e => is_rm e = true) (rm_calls t).
Proof.
  unfold rm_calls; destruct (tmpDir_truthy t); repeat constructor.
Qed.

Lemma rm_calls_truthy [d : string] : d <> "" -> rm_calls (Some d) = [Rm d].
Proof. destruct d; [congruence | reflexivity]. Qed.

(** Where an element sits in a list with a known head. *)
Lemma split_cons {A : Type} (x e : A) (l pre post : list A) :
  x :: l = (pre ++ e :: post)%list ->
  (pre = [] /\ e = x /\ post = l) \/
  (exists pre', pre = x :: pre' /\ l = (pre' ++ e :: post)%list).
Proof.
  destruct pre as [|y pre']; simpl; intros H; inversion H; subst; eauto.
Qed.

(** The calls of the waiting phase: listener entries, the status of the
    rejection callback, the calls of the successful response, and the
    cleanup. *)
Lemma awaits_elements [rm : list effect] [pdf : string] [l : list effect] :
  awaits rm pdf l ->
  forall e, In e l ->
    In e rm \/ (exists ev, e = Event ev) \/ e = Status 500 \/ e = ReadFile pdf \/
    (exists n x, e = SetHeader n x) \/ (exists buf, e = Send buf).
Proof.
  induction 1; intros e I; simpl in I.
  - contradiction.
  - destruct I as [<-|I]; eauto 6.
  - destruct I as [<-|[<-|I]]; eauto 6.
  - destruct I as [<-|I]; eauto 6.
  - destruct I as [<-|I]; eauto 6.
    apply in_app_or in I as [I|[<-|[]]]; eauto 6.
  - destruct I as [<-|[<-|I]]; eauto 6.
  - destruct I as [<-|[<-|I]]; eauto 6.
    apply in_app_or in I as [I|[<-|[]]]; eauto 6.
  - destruct I as [<-|[<-|[<-|[<-|[<-|I]]]]]; eauto 8.
Qed.

(** In the waiting phase, whatever is neither a listener entry nor the
    status of the rejection callback comes after the close event. *)
Lemma awaits_after_close [rm : list effect] [pdf : string] [l : list effect] :
  awaits rm pdf l ->
  forall pre e post,
    l = (pre ++ e :: post)%list ->
    (forall ev, e <> Event ev) -> e <> Status 500 ->
    exists code, In (Event (CloseEvent code)) pre.
Proof.
  induction 1; intros pre e post E NE NS.
  - destruct pre; discriminate.
  - apply split_cons in E as [(-> & -> & _)|(pre' & -> & E)].
    + now elim (NE ev).
    + destruct (IHawaits _ _ _ E NE NS) as (code & I); exists code; now right.
  - apply split_cons in E as [(-> & -> & _)|(pre' & -> & E)].
    + now elim (NE ev).
    + apply split_cons in E as [(-> & -> & _)|(pre'' & -> & E)].
      * now elim NS.
      * destruct (IHawaits _ _ _ E NE NS) as (code & I); exists code;
          now right; right.
  - apply split_cons in E as [(-> & -> & _)|(pre' & -> & E)];
      [now elim (NE (CloseEvent code)) | exists code; now left].
  - apply split_cons in E as [(-> & -> & _)|(pre' & -> & E)];
      [now elim (NE (CloseEvent code)) | exists code; now left].
  - apply split_cons in E as [(-> & -> & _)|(pre' & -> & E)];
      [now elim (NE (CloseEvent (Some 0%Z))) | exists (Some 0%Z); now left].
  - apply split_cons in E as [(-> & -> & _)|(pre' & -> & E)];
      [now elim (NE (CloseEvent (Some 0%Z))) | exists (Some 0%Z); now left].
  - apply split_cons in E as [(-> & -> & _)|(pre' & -> & E)];
      [now elim (NE (CloseEvent (Some 0%Z))) | exists (Some 0%Z); now left].
Qed.


(* ================================================================== *)
(** ** Validation *)

Lemma destructure_get [body html : value] :
  get body "html" = Some html ->
  exists options, destructure body = inr (html, options).
Proof.
  unfold destructure; intros H; rewrite H.
  destruct body; try discriminate; simpl; eauto.
  destruct (assoc "options" fields) as [[]|]; eauto.
Qed.

Lemma handle_invalid (v : variant) (cfg : config) (w : world)
    [body html options : value] :
  destructure body = inr (html, options) ->
  truthy html = false ->
  handle v cfg w body = ([Status 400; Json validation_error], Fulfilled).
Proof.
  intros D T.
  unfold handle, convert, try_catch, convert_try, bind at 1, lift at 1.
  rewrite D, T; reflexivity.
Qed.


(** An absent field. *)
Example absent_html_rejected :
  handle Part000 sample_config world_ok (VObj [("options", VObj [])])
  = ([Status 400; Json validation_error], Fulfilled).
Proof. reflexivity. Qed.

Lemma rm_calls_elements (t : option string) (e : effect) :
  In e (rm_calls t) -> exists d, e = Rm d.
Proof.
  unfold rm_calls; destruct (tmpDir_truthy t); simpl;
    [intros [<-|[]]; eauto | intros []].
Qed.


(** A truthy array passes the validation and is handed to [fs.writeFile]. *)
Example array_html_passes_validation :
  exists rest,
    calls ServerJs sample_config world_ok (VObj [("html", VArr [VNum 1])])
    = Mkdtemp "/tmp/decktape-"
      :: WriteFile "/tmp/decktape-Ab12Cd/input.html" (VArr [VNum 1]) :: rest.
Proof. eexists; reflexivity. Qed.

Example zero_html_is_rejected :
  handle ServerJs sample_config world_ok (VObj [("html", VNum 0)])
  = ([Status 400; Json validation_error], Fulfilled).
Proof. reflexivity. Qed.

(* ================================================================== *)
(** ** The argument vector *)

Lemma option_tokens_spec (options : value) (k : string) (toks : list string) :
  option_tokens options k = inr toks ->
  exists x, get options k = Some x /\ tokens_for ("--" ++ k ++ "=") x toks.
Proof.
  unfold option_tokens, tokens_for.
  destruct (get options k) as [x|]; [|discriminate].
  intros H; exists x; split; [reflexivity|].
  destruct (truthy x).
  - destruct (to_string x) as [s|]; [|discriminate].
    exists s; split; [reflexivity|].
    injection H as <-; f_equal.
    induction k; simpl; [reflexivity|]; simpl in IHk; congruence.
  - now injection H as <-.
Qed.

(** Both files build the fixed part, then the keys (one file only), then
    the optional tokens. *)
Lemma args_of_unified (v : variant) (cfg : config) (d : string) (options : value) :
  args_of v cfg d options = unified_args (navigation_keys_of v) cfg d options.
Proof.
  destruct v; unfold args_of, server_js_args, part_000_args, unified_args,
    fixed_args, navigation_keys_of, key_tokens;
    destruct (option_tokens options "size") as [e|size]; try reflexivity;
    destruct (option_tokens options "pause") as [e|pause]; try reflexivity;
    f_equal; rewrite <- !app_assoc; reflexivity.
Qed.

Lemma args_of_shape (v : variant) (cfg : config) (d : string) (options : value)
    (args : list string) :
  args_of v cfg d options = inr args ->
  exists size pause size_tokens pause_tokens,
    get options "size" = Some size /\
    get options "pause" = Some pause /\
    tokens_for "--size=" size size_tokens /\
    tokens_for "--pause=" pause pause_tokens /\
    args = (fixed_args cfg d
            ++ (if navigation_keys_of v then key_tokens else [])
            ++ size_tokens ++ pause_tokens)%list.
Proof.
  rewrite args_of_unified; unfold unified_args.
  destruct (option_tokens options "size") as [e|size_tokens] eqn:S;
    [discriminate|].
  destruct (option_tokens options "pause") as [e|pause_tokens] eqn:P;
    [discriminate|].
  intros H; injection H as <-.
  apply option_tokens_spec in S as (size & GS & TS).
  apply option_tokens_spec in P as (pause & GP & TP).
  exists size, pause, size_tokens, pause_tokens; auto.
Qed.

(** The process is spawned once, as [node] with the vector [args_of]
    builds, by a request that passed validation and staging. *)
Lemma spawn_in_calls (v : variant) (cfg : config) (w : world) (body : value)
    (command : string) (args : list string) :
  In (Spawn command args) (calls v cfg w body) ->
  command = "node" /\
  exists html options d, staged v cfg w body html options d args.
Proof.
  intros I.
  pose proof (handle_path v cfg w body) as P.
  inversion P as [e D'|h o D' T'|h o e D' T' MK|h o d e D' T' MK WR
                 |h o d e D' T' MK WR AR|h o d a e S SP
                 |h o d a events l r S SP A];
    match goal with H : _ = calls v cfg w body |- _ => rewrite <- H in I end;
    simpl in I.
  - intuition discriminate.
  - intuition discriminate.
  - intuition discriminate.
  - destruct I as [I|[I|[I|[I|I]]]]; try discriminate.
    apply rm_calls_elements in I as (? & I); discriminate.
  - destruct I as [I|[I|[I|[I|I]]]]; try discriminate.
    apply rm_calls_elements in I as (? & I); discriminate.
  - destruct I as [I|[I|[I|[I|[]]]]]; try discriminate.
    injection I as <- <-; eauto.
  - destruct I as [I|[I|[I|I]]]; try discriminate.
    + injection I as <- <-; eauto.
    + destruct (awaits_elements A _ I)
        as [R|[(? & R)|[R|[R|[(? & ? & R)|(? & R)]]]]]; try discriminate.
      apply rm_calls_elements in R as (? & R); discriminate.
Qed.



(** C4, as amended. The optional tokens follow the truthiness of the option
    values, not their presence: after the fixed part (and the navigation
    keys of the variant that has them) the vector holds one token
    [--size=<value>] exactly when [options.size] is truthy, then one token
    [--pause=<value>] exactly when [options.pause] is truthy, and nothing
    else. *)
Theorem option_tokens_follow_truthiness (v : variant) (cfg : config)
    (d : string) (options : value) (args : list string) :
  args_of v cfg d options = inr args ->
  exists size pause size_tokens pause_tokens,
    get options "size" = Some size /\
    get options "pause" = Some pause /\
    args = (fixed_args cfg d
            ++ (if navigation_keys_of v then key_tokens else [])
            ++ size_tokens ++ pause_tokens)%list /\
    (truthy size = true ->
     exists s, to_string size = Some s /\ size_tokens = ["--size=" ++ s]) /\
    (truthy size = false -> size_tokens = []) /\
    (truthy pause = true ->
     exists s, to_string pause = Some s /\ pause_tokens = ["--pause=" ++ s]) /\
    (truthy pause = false -> pause_tokens = []).
Proof.
  intros H.
  destruct (args_of_shape _ _ _ _ _ H)
    as (size & pause & st & pt & GS & GP & TS & TP & E).
  exists size, pause, st, pt.
  unfold tokens_for in TS, TP.
  repeat split; auto.
  - intros T; now rewrite T in TS.
  - intros T; now rewrite T in TS.
  - intros T; now rewrite T in TP.
  - intros T; now rewrite T in TP.
Qed.

Lemma option_tokens_follow_truthiness_witness :
  exists size pause size_tokens pause_tokens,
    get options_a4_pause2 "size" = Some size /\
    get options_a4_pause2 "pause" = Some pause /\
    ["/app/decktape.js"; "--chrome-path"; "/usr/bin/chromium-browser";
     "--chrome-arg=--no-sandbox"; "--chrome-arg=--disable-gpu"; "generic";
     "file:///tmp/decktape-Ab12Cd/input.html"; "/tmp/decktape-Ab12Cd/output.pdf";
     "--size=A4"; "--pause=2"]
    = (fixed_args sample_config sample_dir
       ++ (if navigation_keys_of Part000 then key_tokens else [])
       ++ size_tokens ++ pause_tokens)%list /\
    (truthy size = true ->
     exists s, to_string size = Some s /\ size_tokens = ["--size=" ++ s]) /\
    (truthy size = false -> size_tokens = []) /\
    (truthy pause = true ->
     exists s, to_string pause = Some s /\ pause_tokens = ["--pause=" ++ s]) /\
    (truthy pause = false -> pause_tokens = []).
Proof.
  apply (option_tokens_follow_truthiness Part000 sample_config sample_dir
           options_a4_pause2).
  reflexivity.
Defined.

(** The two examples of the specification. *)
Example size_and_pause_tokens :
  part_000_args sample_config sample_dir options_a4_pause2
  = inr (fixed_args sample_config sample_dir ++ ["--size=A4"; "--pause=2"])%list
  /\ server_js_args sample_config sample_dir options_a4_pause2
     = inr (fixed_args sample_config sample_dir
            ++ key_tokens ++ ["--size=A4"; "--pause=2"])%list.
Proof. split; reflexivity. Qed.

Example no_option_no_token :
  part_000_args sample_config sample_dir (VObj [])
  = inr (fixed_args sample_config sample_dir)
  /\ server_js_args sample_config sample_dir (VObj [])
     = inr (fixed_args sample_config sample_dir ++ key_tokens)%list.
Proof. split; reflexivity. Qed.

(** C4, as stated, fails: [pause] is present in [{ pause: 0 }], and the
    vector holds no [--pause=] token. *)
Lemma pause_zero_present_without_token :
  present "pause" options_pause0 = true /\
  part_000_args sample_config sample_dir options_pause0
  = inr ["/app/decktape.js"; "--chrome-path"; "/usr/bin/chromium-browser";
         "--chrome-arg=--no-sandbox"; "--chrome-arg=--disable-gpu"; "generic";
         "file:///tmp/decktape-Ab12Cd/input.html";
         "/tmp/decktape-Ab12Cd/output.pdf"] /\
  existsb (String.prefix "--pause=")
    ["/app/decktape.js"; "--chrome-path"; "/usr/bin/chromium-browser";
     "--chrome-arg=--no-sandbox"; "--chrome-arg=--disable-gpu"; "generic";
     "file:///tmp/decktape-Ab12Cd/input.html";
     "/tmp/decktape-Ab12Cd/output.pdf"] = false.
Proof. repeat split. Qed.

(** [split] gives the pieces between the separators: they contain none,
    and joined by the separator they give the string back. *)
Lemma split_nonempty (sep : ascii) (s : string) : split sep s <> [].
Proof.
  destruct s as [|c rest]; simpl; [discriminate|].
  destruct (Ascii.eqb c sep); [discriminate|].
  destruct (split sep rest); discriminate.
Qed.

Lemma split_pieces (sep : ascii) (s : string) :
  Forall (fun piece => contains sep piece = false) (split sep s).
Proof.
  induction s as [|c rest IH]; simpl.
  - repeat constructor.
  - destruct (Ascii.eqb c sep) eqn:E.
    + constructor; [reflexivity | exact IH].
    + destruct (split sep rest) as [|piece pieces].
      * repeat constructor; simpl; now rewrite E.
      * inversion IH; subst; constructor; [simpl; now rewrite E | assumption].
Qed.

Lemma concat_split (sep : ascii) (s : string) :
  String.concat (String sep EmptyString) (split sep s) = s.
Proof.
  induction s as [|c rest IH]; simpl; [reflexivity|].
  destruct (Ascii.eqb c sep) eqn:E.
  - apply Ascii.eqb_eq in E; subst c.
    pose proof (split_nonempty sep rest) as N.
    destruct (split sep rest) as [|piece pieces]; [now elim N|].
    simpl in *; now rewrite IH.
  - pose proof (split_nonempty sep rest) as N.
    destruct (split sep rest) as [|piece pieces]; [now elim N|].
    destruct pieces as [|q qs]; simpl in *; now rewrite <- IH.
Qed.

(** C7, as amended. A non-empty value of [CHROME_FLAGS] gives, right after
    the browser path and before the mode token, one [--chrome-arg=<flag>]
    token per comma-separated piece of the value, in order; an unset or
    empty value gives the two default tokens. *)
Theorem chrome_flags_tokens (v : variant) (cfg : config) (d : string)
    (options : value) (args : list string) :
  args_of v cfg d options = inr args ->
  (forall s, CHROME_FLAGS cfg = Some s -> s <> "" ->
     exists post,
       args = ([decktapePath cfg; "--chrome-path"; chromePath cfg]
               ++ map chrome_arg (split "," s) ++ "generic" :: post)%list) /\
  (CHROME_FLAGS cfg = None \/ CHROME_FLAGS cfg = Some "" ->
     exists post,
       args = ([decktapePath cfg; "--chrome-path"; chromePath cfg]
               ++ ["--chrome-arg=--no-sandbox"; "--chrome-arg=--disable-gpu"]
               ++ "generic" :: post)%list).
Proof.
  intros H.
  destruct (args_of_shape _ _ _ _ _ H) as (sz & pa & st & pt & _ & _ & _ & _ & ->).
  unfold fixed_args, chromeFlags.
  split.
  - intros s E N; rewrite E; simpl env_or.
    destruct s as [|c s']; [now elim N|]; cbn [str_truthy].
    eexists; rewrite <- !app_assoc; simpl; reflexivity.
  - intros [E|E]; rewrite E; simpl env_or;
      eexists; rewrite <- !app_assoc; simpl; reflexivity.
Qed.

Lemma chrome_flags_tokens_witness :
  exists post,
    ["/app/decktape.js"; "--chrome-path"; "/opt/chrome";
     "--chrome-arg=--headless"; "--chrome-arg=--mute-audio"; "--chrome-arg=";
     "generic"; "file:///tmp/decktape-Ab12Cd/input.html";
     "/tmp/decktape-Ab12Cd/output.pdf"; "--key=ArrowDown"; "--key=ArrowRight"]
    = ([decktapePath config_three_flags; "--chrome-path";
        chromePath config_three_flags]
       ++ map chrome_arg (split "," "--headless,--mute-audio,")
       ++ "generic" :: post)%list.
Proof.
  destruct (chrome_flags_tokens ServerJs config_three_flags sample_dir (VObj [])
              _ eq_refl) as (F & _).
  apply (F "--headless,--mute-audio," eq_refl); discriminate.
Defined.

(** C7, as stated, fails for the empty string: its one comma-separated
    piece is the empty one, and the vector holds the two default tokens. *)
Lemma empty_flags_give_defaults :
  CHROME_FLAGS config_empty_flags = Some "" /\
  map chrome_arg (split "," "") = ["--chrome-arg="] /\
  part_000_args config_empty_flags sample_dir (VObj [])
  = inr ["/app/decktape.js"; "--chrome-path"; "/usr/bin/chromium-browser";
         "--chrome-arg=--no-sandbox"; "--chrome-arg=--disable-gpu"; "generic";
         "file:///tmp/decktape-Ab12Cd/input.html";
         "/tmp/decktape-Ab12Cd/output.pdf"].
Proof. repeat split. Qed.

(** C9. The two files build the same vector, but for the two navigation-key
    tokens of [server.js], which sit right after the output path and before
    the optional tokens; each file is the single builder at one value of
    its boolean. *)
Theorem variants_are_instances (cfg : config) (d : string) (options : value) :
  unified_args true cfg d options = server_js_args cfg d options /\
  unified_args false cfg d options = part_000_args cfg d options /\
  match part_000_args cfg d options, server_js_args cfg d options with
  | inr without, inr with_keys =>
      exists rest,
        without = (fixed_args cfg d ++ rest)%list /\
        with_keys
        = (fixed_args cfg d ++ ["--key=ArrowDown"; "--key=ArrowRight"] ++ rest)%list
  | inl e, inl e' => e = e'
  | _, _ => False
  end.
Proof.
  split; [exact (eq_sym (args_of_unified ServerJs cfg d options))|].
  split; [exact (eq_sym (args_of_unified Part000 cfg d options))|].
  rewrite (args_of_unified ServerJs cfg d options : server_js_args _ _ _ = _).
  rewrite (args_of_unified Part000 cfg d options : part_000_args _ _ _ = _).
  unfold unified_args; simpl navigation_keys_of.
  destruct (option_tokens options "size") as [e|size]; [reflexivity|].
  destruct (option_tokens options "pause") as [e|pause]; [reflexivity|].
  exists (size ++ pause)%list; split; reflexivity.
Qed.

(* ================================================================== *)
(** ** Renderer failure, launch failure and cleanup *)

Lemma no_json_in_failure_calls (cfg : config) (d : string) (html : value)
    (args : list string) (data : list proc_event) (code : option Z)
    (mid : list effect) (b : value) :
  Forall (fun e => forall x, e <> Json x) mid ->
  ~ In (Json b)
      (staging_calls cfg d html args ++ map Event data
       ++ Event (CloseEvent code) :: mid ++ rm_calls (Some d) ++ [Status 500]).
Proof.
  intros F I.
  apply in_app_or in I as [I|I]; [simpl in I; intuition discriminate|].
  apply in_app_or in I as [I|I];
    [apply in_map_iff in I as (? & I & _); discriminate|].
  destruct I as [I|I]; [discriminate|].
  apply in_app_or in I as [I|I].
  - rewrite Forall_forall in F; now apply (F _ I b).
  - apply in_app_or in I as [I|I];
      [apply rm_calls_elements in I as (? & I); discriminate
      | simpl in I; intuition discriminate].
Qed.

(** The error the close listener builds carries the text of the error
    stream, or of the output stream when the error stream gave none. *)
Lemma failure_message_prefers_stderr (data : list proc_event) :
  message (decktape_failed (absorb data fresh))
  = "Decktape failed: "
    ++ (if str_truthy (stderr_text data) then stderr_text data
        else stdout_text data).
Proof.
  unfold decktape_failed.
  rewrite absorb_stderr, absorb_stdout; reflexivity.
Qed.

(** C1 (the code departs from it). When the renderer closes with a non-zero
    code, the close listener starts the removal of the working directory
    and the rejection callback sets status 500; then the callback throws,
    because it reads [stdout] and [stderr], variables of the promise
    executor that are out of its scope. No JSON body is sent, with or
    without the two buffers, and the handler's promise is rejected with
    the [ReferenceError]. *)
Theorem nonzero_exit_sends_no_error_body (v : variant) (cfg : config)
    (w : world) (body html options : value) (d : string) (args : list string)
    (data rest : list proc_event) (code : option Z) :
  staged v cfg w body html options d args ->
  spawn_result w = inr (data ++ CloseEvent code :: rest)%list ->
  forallb is_data data = true ->
  code_nonzero code = true ->
  calls v cfg w body
  = (staging_calls cfg d html args ++ map Event data
     ++ Event (CloseEvent code) :: rm_calls (Some d) ++ [Status 500])%list /\
  outcome v cfg w body = Rejected (ReferenceError "stdout is not defined") /\
  forall b, ~ In (Json b) (calls v cfg w body).
Proof.
  intros S SP D NZ.
  pose proof (handle_nonzero _ _ _ _ _ _ _ _ _ _ _ S SP D NZ) as H.
  unfold calls, outcome; rewrite H; simpl fst; simpl snd.
  repeat split.
  intros b.
  apply (no_json_in_failure_calls cfg d html args data code [] b); constructor.
Qed.

Lemma nonzero_exit_sends_no_error_body_witness :
  calls ServerJs sample_config world_exit1 sample_body
  = [Mkdtemp "/tmp/decktape-";
     WriteFile "/tmp/decktape-Ab12Cd/input.html" (VStr "<h1>Hello</h1>");
     Spawn "node"
       ["/app/decktape.js"; "--chrome-path"; "/usr/bin/chromium-browser";
        "--chrome-arg=--no-sandbox"; "--chrome-arg=--disable-gpu"; "generic";
        "file:///tmp/decktape-Ab12Cd/input.html";
        "/tmp/decktape-Ab12Cd/output.pdf"; "--key=ArrowDown"; "--key=ArrowRight"];
     Event (StdoutData "Loading page"); Event (StderrData "boom");
     Event (CloseEvent (Some 1%Z)); Rm "/tmp/decktape-Ab12Cd"; Status 500] /\
  outcome ServerJs sample_config world_exit1 sample_body
  = Rejected (ReferenceError "stdout is not defined") /\
  forall b, ~ In (Json b) (calls ServerJs sample_config world_exit1 sample_body).
Proof.
  apply (nonzero_exit_sends_no_error_body ServerJs sample_config world_exit1
           sample_body (VStr "<h1>Hello</h1>") (VObj []) sample_dir
           ["/app/decktape.js"; "--chrome-path"; "/usr/bin/chromium-browser";
            "--chrome-arg=--no-sandbox"; "--chrome-arg=--disable-gpu"; "generic";
            "file:///tmp/decktape-Ab12Cd/input.html";
            "/tmp/decktape-Ab12Cd/output.pdf"; "--key=ArrowDown";
            "--key=ArrowRight"]
           [StdoutData "Loading page"; StderrData "boom"] [] (Some 1%Z)).
  - repeat split.
  - reflexivity.
  - reflexivity.
  - reflexivity.
Defined.

(** C2 (the code departs from it). When [spawn] itself throws, the request
    has a working directory, and neither cleanup block runs: the [try] block
    has already returned the promise, and the close listener never runs.
    The directory is left behind. *)
Theorem spawn_failure_skips_cleanup (v : variant) (cfg : config) (w : world)
    (body html options : value) (d : string) (args : list string) (e : error) :
  staged v cfg w body html options d args ->
  spawn_result w = inl e ->
  calls v cfg w body = (staging_calls cfg d html args ++ [Status 500])%list /\
  outcome v cfg w body = Rejected (ReferenceError "stdout is not defined") /\
  forall dir, ~ In (Rm dir) (calls v cfg w body).
Proof.
  intros S SP.
  pose proof (handle_spawn_throws _ _ _ _ _ _ _ _ _ S SP) as H.
  unfold calls, outcome; rewrite H; simpl fst; simpl snd.
  repeat split.
  intros dir I; simpl in I; intuition discriminate.
Qed.

Lemma spawn_failure_skips_cleanup_witness :
  calls Part000 sample_config world_spawn_throws sample_body
  = [Mkdtemp "/tmp/decktape-";
     WriteFile "/tmp/decktape-Ab12Cd/input.html" (VStr "<h1>Hello</h1>");
     Spawn "node"
       ["/app/decktape.js"; "--chrome-path"; "/usr/bin/chromium-browser";
        "--chrome-arg=--no-sandbox"; "--chrome-arg=--disable-gpu"; "generic";
        "file:///tmp/decktape-Ab12Cd/input.html";
        "/tmp/decktape-Ab12Cd/output.pdf"];
     Status 500] /\
  outcome Part000 sample_config world_spawn_throws sample_body
  = Rejected (ReferenceError "stdout is not defined") /\
  forall dir,
    ~ In (Rm dir) (calls Part000 sample_config world_spawn_throws sample_body).
Proof.
  apply (spawn_failure_skips_cleanup Part000 sample_config world_spawn_throws
           sample_body (VStr "<h1>Hello</h1>") (VObj []) sample_dir
           ["/app/decktape.js"; "--chrome-path"; "/usr/bin/chromium-browser";
            "--chrome-arg=--no-sandbox"; "--chrome-arg=--disable-gpu"; "generic";
            "file:///tmp/decktape-Ab12Cd/input.html";
            "/tmp/decktape-Ab12Cd/output.pdf"]
           (Error "spawn E2BIG")).
  - repeat split.
  - reflexivity.
Defined.

(** The same holds when the child reports ['error'] and no ['close']
    follows: the error listener only rejects. *)
Lemma error_event_alone_skips_cleanup (v : variant) (cfg : config) (w : world)
    (body html options : value) (d : string) (args : list string) (e : error) :
  staged v cfg w body html options d args ->
  spawn_result w = inr [ErrorEvent e] ->
  handle v cfg w body
  = ((staging_calls cfg d html args ++ [Event (ErrorEvent e); Status 500])%list,
     Rejected scope_error).
Proof.
  intros S SP.
  apply (handle_staged _ _ _ _ _ _ _ _ _ _ S).
  unfold run_promise.
  rewrite (bind_run _ (emit_run _ _)), SP; reflexivity.
Qed.

Lemma awaits_close_rm (rm : list effect) (pdf : string) (code : option Z)
    (l : list effect) :
  awaits rm pdf (Event (CloseEvent code) :: l) -> incl rm l.
Proof.
  intros A; inversion A; subst; try discriminate; intros x I;
    repeat (try (apply in_or_app; left; exact I); try exact I; right).
Qed.

Lemma deliver_reaches_close (w : world) (rho : list (string * value))
    (pdf : string) (events : list proc_event) :
  forall (p : promise_state) (st : state),
    queued p = None ->
    existsb is_close events = true ->
    exists l p',
      deliver w rho pdf events p st = (log st l, inr p') /\
      incl (rm_calls (tmpDir st)) l.
Proof.
  induction events as [|ev rest IH]; intros p st Q C; [discriminate|].
  simpl deliver; rewrite (bind_run _ (emit_run _ _)).
  destruct ev as [chunk|chunk|e|code]; simpl in C.
  - rewrite (bind_run _ (checkpoint_idle rho (p := on_stderr chunk p) _ Q)).
    destruct (IH (on_stderr chunk p) (log st [Event (StderrData chunk)]) Q C)
      as (l & p' & E & I).
    rewrite E, log_log; eexists _, p'; split; [reflexivity|].
    intros x X; apply I in X; clear - X; simpl; rewrite ?in_app_iff; simpl; tauto.
  - rewrite (bind_run _ (checkpoint_idle rho (p := on_stdout chunk p) _ Q)).
    destruct (IH (on_stdout chunk p) (log st [Event (StdoutData chunk)]) Q C)
      as (l & p' & E & I).
    rewrite E, log_log; eexists _, p'; split; [reflexivity|].
    intros x X; apply I in X; clear - X; simpl; rewrite ?in_app_iff; simpl; tauto.
  - destruct (checkpoint_cases rho (reject e p) (log st [Event (ErrorEvent e)]))
      as (l0 & p0 & E0 & Q0 & _).
    rewrite (bind_run _ E0).
    destruct (IH p0 (log (log st [Event (ErrorEvent e)]) l0) Q0 C)
      as (l & p' & E & I).
    rewrite E, !log_log; eexists _, p'; split; [reflexivity|].
    intros x X; apply I in X; clear - X; simpl; rewrite ?in_app_iff; simpl; tauto.
  - destruct (on_close_awaits w rho pdf code p
                (log st [Event (CloseEvent code)]) Q) as (l & p' & E & A).
    rewrite E, log_log; eexists _, p'; split; [reflexivity|].
    apply awaits_close_rm in A.
    intros x X; apply A in X; clear - X; simpl; rewrite ?in_app_iff; simpl; tauto.
Qed.

(** Once the child closes, whatever its exit code and whatever happens to
    the output file, the removal of the working directory is issued. *)
Lemma directory_removed_after_close (v : variant) (cfg : config) (w : world)
    (body html options : value) (d : string) (args : list string)
    (events : list proc_event) :
  staged v cfg w body html options d args ->
  spawn_result w = inr events ->
  existsb is_close events = true ->
  d <> "" ->
  In (Rm d) (calls v cfg w body).
Proof.
  intros S SP C N.
  destruct (run_promise_spawned w (locals cfg d html options args)
              (pdfPath cfg d) args events (staged_state cfg d html) SP)
    as (p & _ & R).
  destruct (deliver_reaches_close w (locals cfg d html options args)
              (pdfPath cfg d) events fresh
              (log (staged_state cfg d html) [Spawn "node" args]) eq_refl C)
    as (l & p' & E & I).
  rewrite E in R; simpl fst in R; rewrite log_log in R.
  unfold calls; rewrite (handle_staged _ _ _ _ _ _ _ _ _ _ S R); simpl fst.
  do 3 right; apply I.
  simpl tmpDir; rewrite (rm_calls_truthy N); now left.
Qed.

(** So is it when staging fails after the directory was created. *)
Lemma directory_removed_when_staging_fails (v : variant) (cfg : config)
    (w : world) (body html options : value) (d : string) (e : error) :
  destructure body = inr (html, options) ->
  truthy html = true ->
  mkdtemp_result w = inr d ->
  d <> "" ->
  writeFile_result w = inl e \/
  (writeFile_result w = inr tt /\ args_of v cfg d options = inl e) ->
  calls v cfg w body
  = [Mkdtemp (join cfg (tmpdir cfg) "decktape-");
     WriteFile (htmlPath cfg d) html; Status 500; Json (conversion_error e);
     Rm d].
Proof.
  intros D T MK N F.
  pose proof (handle_path v cfg w body) as P.
  inversion P as [e' D'|h o D' T'|h o e' D' T' MK'|h o d' e' D' T' MK' WR
                 |h o d' e' D' T' MK' WR AR|h o d' a e' S SP
                 |h o d' a events l r S SP A]; try congruence.
  - assert (d' = d /\ h = html) as (-> & ->) by (split; congruence).
    destruct F as [F|(F & _)]; [|congruence].
    assert (e' = e) as -> by congruence.
    now rewrite (rm_calls_truthy N).
  - assert (d' = d /\ h = html /\ o = options) as (-> & -> & ->)
      by (repeat split; congruence).
    destruct F as [F|(_ & F)]; [congruence|].
    assert (e' = e) as -> by congruence.
    now rewrite (rm_calls_truthy N).
  - destruct S as (D' & _ & MK' & WR & AR).
    assert (d' = d /\ o = options) as (-> & ->) by (split; congruence).
    destruct F as [F|(_ & F)]; congruence.
  - destruct S as (D' & _ & MK' & WR & AR).
    assert (d' = d /\ o = options) as (-> & ->) by (split; congruence).
    destruct F as [F|(_ & F)]; congruence.
Qed.

(* ================================================================== *)
(** ** Exit code 0 *)

(** C5 (the code departs from its second half). When the renderer closes
    with code 0 and [output.pdf] is read, the handler sets the two headers,
    [Content-Type: application/pdf] and
    [Content-Disposition: attachment; filename=presentation.pdf], and sends
    exactly the bytes read. When the file cannot be read, no internal-error
    response is sent: the rejection callback sets status 500 and throws on
    the out-of-scope [stdout] (the defect of C1). *)
Theorem zero_exit_response (v : variant) (cfg : config) (w : world)
    (body html options : value) (d : string) (args : list string)
    (data rest : list proc_event) :
  staged v cfg w body html options d args ->
  spawn_result w = inr (data ++ CloseEvent (Some 0%Z) :: rest)%list ->
  forallb is_data data = true ->
  match readFile_result w with
  | inr buf =>
      handle v cfg w body
      = ((staging_calls cfg d html args ++ map Event data
          ++ Event (CloseEvent (Some 0%Z))
             :: [ReadFile (pdfPath cfg d);
                 SetHeader "Content-Type" "application/pdf";
                 SetHeader "Content-Disposition"
                   "attachment; filename=presentation.pdf";
                 Send buf] ++ rm_calls (Some d))%list,
         Fulfilled)
  | inl _ =>
      handle v cfg w body
      = ((staging_calls cfg d html args ++ map Event data
          ++ Event (CloseEvent (Some 0%Z))
             :: ReadFile (pdfPath cfg d) :: rm_calls (Some d) ++ [Status 500])%list,
         Rejected (ReferenceError "stdout is not defined")) /\
      forall b, ~ In (Json b) (calls v cfg w body)
  end.
Proof.
  intros S SP D.
  destruct (readFile_result w) as [e|buf] eqn:RF.
  - pose proof (handle_unreadable _ _ _ _ _ _ _ _ _ _ _ S SP D RF) as H.
    split; [exact H|].
    unfold calls; rewrite H; simpl fst; intros b.
    apply (no_json_in_failure_calls cfg d html args data (Some 0%Z)
             [ReadFile (pdfPath cfg d)] b).
    repeat constructor; discriminate.
  - exact (handle_sent _ _ _ _ _ _ _ _ _ _ _ S SP D RF).
Qed.

Lemma zero_exit_response_witness :
  handle Part000 sample_config world_no_pdf sample_body
  = ([Mkdtemp "/tmp/decktape-";
      WriteFile "/tmp/decktape-Ab12Cd/input.html" (VStr "<h1>Hello</h1>");
      Spawn "node"
        ["/app/decktape.js"; "--chrome-path"; "/usr/bin/chromium-browser";
         "--chrome-arg=--no-sandbox"; "--chrome-arg=--disable-gpu"; "generic";
         "file:///tmp/decktape-Ab12Cd/input.html";
         "/tmp/decktape-Ab12Cd/output.pdf"];
      Event (CloseEvent (Some 0%Z));
      ReadFile "/tmp/decktape-Ab12Cd/output.pdf";
      Rm "/tmp/decktape-Ab12Cd"; Status 500],
     Rejected (ReferenceError "stdout is not defined")) /\
  forall b, ~ In (Json b) (calls Part000 sample_config world_no_pdf sample_body).
Proof.
  apply (zero_exit_response Part000 sample_config world_no_pdf sample_body
           (VStr "<h1>Hello</h1>") (VObj []) sample_dir
           ["/app/decktape.js"; "--chrome-path"; "/usr/bin/chromium-browser";
            "--chrome-arg=--no-sandbox"; "--chrome-arg=--disable-gpu"; "generic";
            "file:///tmp/decktape-Ab12Cd/input.html";
            "/tmp/decktape-Ab12Cd/output.pdf"]
           [] []).
  - repeat split.
  - reflexivity.
  - reflexivity.
Defined.

(** The successful conversion, on the sample world. *)
Example pdf_is_sent :
  handle ServerJs sample_config world_ok sample_body
  = ([Mkdtemp "/tmp/decktape-";
      WriteFile "/tmp/decktape-Ab12Cd/input.html" (VStr "<h1>Hello</h1>");
      Spawn "node"
        ["/app/decktape.js"; "--chrome-path"; "/usr/bin/chromium-browser";
         "--chrome-arg=--no-sandbox"; "--chrome-arg=--disable-gpu"; "generic";
         "file:///tmp/decktape-Ab12Cd/input.html";
         "/tmp/decktape-Ab12Cd/output.pdf"; "--key=ArrowDown"; "--key=ArrowRight"];
      Event (StdoutData "Printing slide 1"); Event (CloseEvent (Some 0%Z));
      ReadFile "/tmp/decktape-Ab12Cd/output.pdf";
      SetHeader "Content-Type" "application/pdf";
      SetHeader "Content-Disposition" "attachment; filename=presentation.pdf";
      Send pdf_bytes; Rm "/tmp/decktape-Ab12Cd"],
     Fulfilled).
Proof. reflexivity. Qed.

(* ================================================================== *)
(** ** Order of the calls *)




Lemma in_sequence_events (e : effect) (data : list proc_event)
    (ev : proc_event) (l : list effect) :
  in_sequence (e :: map Event data ++ Event ev :: l)
  = Nat.leb (phase e) 3 && in_sequence (Event ev :: l).
Proof.
  revert e; induction data as [|x data IH]; intros e; [reflexivity|].
  cbn [map app]; change (in_sequence (e :: Event x :: ?t))
    with (Nat.leb (phase e) 3 && in_sequence (Event x :: t)).
  now rewrite IH.
Qed.

Lemma in_sequence_staging (a b c : effect) (data : list proc_event)
    (ev : proc_event) (l : list effect) :
  in_sequence (a :: b :: c :: map Event data ++ Event ev :: l)
  = Nat.leb (phase a) (phase b)
    && (Nat.leb (phase b) (phase c)
        && (Nat.leb (phase c) 3 && in_sequence (Event ev :: l))).
Proof. rewrite <- (in_sequence_events c data ev l); reflexivity. Qed.

(* ================================================================== *)
(** ** Failures before the renderer is spawned *)

Lemma handle_pair (v : variant) (cfg : config) (w : world) (body : value) :
  handle v cfg w body = (calls v cfg w body, outcome v cfg w body).
Proof. unfold calls, outcome; now destruct (handle v cfg w body). Qed.

Lemma handle_no_body (v : variant) (cfg : config) (w : world) (body : value)
    (e : error) :
  destructure body = inl e ->
  handle v cfg w body = ([Status 500; Json (conversion_error e)], Fulfilled).
Proof.
  intros D; rewrite handle_pair.
  pose proof (handle_path v cfg w body) as P.
  inversion P as [x D'|h o D' T'|h o x D' T' MK|h o d x D' T' MK WR
                 |h o d x D' T' MK WR AR|h o d a x S SP
                 |h o d a events l r S SP A];
    try destruct S as (D' & _); try congruence.
Qed.

Lemma handle_mkdtemp_fails (v : variant) (cfg : config) (w : world)
    (body html options : value) (e : error) :
  destructure body = inr (html, options) ->
  truthy html = true ->
  mkdtemp_result w = inl e ->
  handle v cfg w body
  = ([Mkdtemp (join cfg (tmpdir cfg) "decktape-"); Status 500;
      Json (conversion_error e)], Fulfilled).
Proof.
  intros D T MK; rewrite handle_pair.
  pose proof (handle_path v cfg w body) as P.
  inversion P as [x D'|h o D' T'|h o x D' T' MK'|h o d x D' T' MK' WR
                 |h o d x D' T' MK' WR AR|h o d a x S SP
                 |h o d a events l r S SP A];
    try destruct S as (D' & _ & MK' & _); try congruence.
Qed.

(** X1. When the working directory cannot be created, the request is
    answered with status 500 and the JSON object that carries the message
    of the error; nothing is written, spawned or removed, and the handler's
    promise is fulfilled. *)
Theorem mkdtemp_failure_response (v : variant) (cfg : config) (w : world)
    (body html : value) (e : error) :
  get body "html" = Some html ->
  truthy html = true ->
  mkdtemp_result w = inl e ->
  handle v cfg w body
  = ([Mkdtemp (join cfg (tmpdir cfg) "decktape-");
      Status 500;
      Json (VObj [("error", VStr "PDF conversion failed");
                  ("details", VStr (message e))])],
     Fulfilled).
Proof.
  intros G T MK.
  destruct (destructure_get G) as (options & D).
  exact (handle_mkdtemp_fails v cfg w _ _ _ _ D T MK).
Qed.

Lemma mkdtemp_failure_response_witness :
  handle ServerJs sample_config world_mkdtemp_fails sample_body
  = ([Mkdtemp "/tmp/decktape-";
      Status 500;
      Json (VObj [("error", VStr "PDF conversion failed");
                  ("details", VStr "ENOSPC: no space left on device")])],
     Fulfilled).
Proof.
  apply (mkdtemp_failure_response ServerJs sample_config world_mkdtemp_fails
           sample_body (VStr "<h1>Hello</h1>")
           (Error "ENOSPC: no space left on device"));
    reflexivity.
Defined.

(** X3. A request without a usable body ([req.body] is [undefined] or
    [null]) is answered with status 500 and the message of the
    [TypeError] of the destructuring, not with the validation error; no
    directory is created and nothing else is called. *)
Theorem unparsed_body_response (v : variant) (cfg : config) (w : world)
    (body : value) :
  body = VUndefined \/ body = VNull ->
  exists msg,
    handle v cfg w body
    = ([Status 500;
        Json (VObj [("error", VStr "PDF conversion failed");
                    ("details", VStr msg)])],
       Fulfilled) /\
    destructure body = inl (TypeError msg).
Proof.
  intros [-> | ->]; eexists; split;
    try (apply handle_no_body); reflexivity.
Qed.

Lemma unparsed_body_response_witness :
  exists msg,
    handle Part000 sample_config world_ok VUndefined
    = ([Status 500;
        Json (VObj [("error", VStr "PDF conversion failed");
                    ("details", VStr msg)])],
       Fulfilled) /\
    destructure VUndefined = inl (TypeError msg).
Proof.
  apply (unparsed_body_response Part000 sample_config world_ok VUndefined).
  left; reflexivity.
Defined.

(** X4. [options: null] is not taken for a missing [options]: the default
    [{}] does not apply, the working directory is created and [input.html]
    written, then reading [options.size] throws. The request is answered
    with status 500 and the [TypeError]'s message, the directory is
    removed, and the renderer is not spawned. *)
Theorem null_options_response (v : variant) (cfg : config) (w : world)
    (body html : value) (d : string) :
  get body "html" = Some html ->
  truthy html = true ->
  get body "options" = Some VNull ->
  mkdtemp_result w = inr d ->
  d <> "" ->
  writeFile_result w = inr tt ->
  handle v cfg w body
  = ([Mkdtemp (join cfg (tmpdir cfg) "decktape-");
      WriteFile (htmlPath cfg d) html;
      Status 500;
      Json (VObj [("error", VStr "PDF conversion failed");
                  ("details",
                   VStr "Cannot read properties of null (reading 'size')")]);
      Rm d],
     Fulfilled).
Proof.
  intros G T O MK N WR.
  assert (destructure body = inr (html, VNull)) as D
    by (unfold destructure; now rewrite G, O).
  assert (args_of v cfg d VNull
          = inl (TypeError "Cannot read properties of null (reading 'size')"))
    as AR by now destruct v.
  rewrite handle_pair.
  pose proof (handle_path v cfg w body) as P.
  inversion P as [x D'|h o D' T'|h o x D' T' MK'|h o d' x D' T' MK' WR'
                 |h o d' x D' T' MK' WR' AR'|h o d' a x S SP
                 |h o d' a events l r S SP A];
    try destruct S as (D' & _ & MK' & WR' & AR'); try congruence.
  assert (d' = d /\ h = html /\ o = VNull) as (-> & -> & ->)
    by (repeat split; congruence).
  assert (x = TypeError "Cannot read properties of null (reading 'size')")
    as -> by congruence.
  now rewrite (rm_calls_truthy N).
Qed.

Lemma null_options_response_witness :
  handle ServerJs sample_config world_ok body_null_options
  = ([Mkdtemp "/tmp/decktape-";
      WriteFile "/tmp/decktape-Ab12Cd/input.html" (VStr "<h1>Hello</h1>");
      Status 500;
      Json (VObj [("error", VStr "PDF conversion failed");
                  ("details",
                   VStr "Cannot read properties of null (reading 'size')")]);
      Rm "/tmp/decktape-Ab12Cd"],
     Fulfilled).
Proof.
  apply (null_options_response ServerJs sample_config world_ok
           body_null_options (VStr "<h1>Hello</h1>") "/tmp/decktape-Ab12Cd");
    try reflexivity.
  discriminate.
Defined.

Lemma handle_write_fails (v : variant) (cfg : config) (w : world)
    (body html options : value) (d : string) (e : error) :
  destructure body = inr (html, options) ->
  truthy html = true ->
  mkdtemp_result w = inr d ->
  writeFile_result w = inl e ->
  handle v cfg w body
  = (([Mkdtemp (join cfg (tmpdir cfg) "decktape-");
       WriteFile (htmlPath cfg d) html; Status 500; Json (conversion_error e)]
      ++ rm_calls (Some d))%list, Fulfilled).
Proof.
  intros D T MK WR; rewrite handle_pair.
  pose proof (handle_path v cfg w body) as P.
  inversion P as [x D'|h o D' T'|h o x D' T' MK'|h o d' x D' T' MK' WR'
                 |h o d' x D' T' MK' WR' AR'|h o d' a x S SP
                 |h o d' a events l r S SP A];
    try destruct S as (D' & _ & MK' & WR' & AR'); simpl; try congruence.
Qed.

Lemma handle_args_throw (v : variant) (cfg : config) (w : world)
    (body html options : value) (d : string) (e : error) :
  destructure body = inr (html, options) ->
  truthy html = true ->
  mkdtemp_result w = inr d ->
  writeFile_result w = inr tt ->
  args_of v cfg d options = inl e ->
  handle v cfg w body
  = (([Mkdtemp (join cfg (tmpdir cfg) "decktape-");
       WriteFile (htmlPath cfg d) html; Status 500; Json (conversion_error e)]
      ++ rm_calls (Some d))%list, Fulfilled).
Proof.
  intros D T MK WR AR; rewrite handle_pair.
  pose proof (handle_path v cfg w body) as P.
  inversion P as [x D'|h o D' T'|h o x D' T' MK'|h o d' x D' T' MK' WR'
                 |h o d' x D' T' MK' WR' AR'|h o d' a x S SP
                 |h o d' a events l r S SP A];
    try destruct S as (D' & _ & MK' & WR' & AR'); simpl; try congruence.
Qed.

(* ================================================================== *)
(** ** What the waiting phase does not depend on *)

Lemma with_rm_same (w : world) : with_rm w (rm_result w) = w.
Proof. now destruct w. Qed.

(** A checkpoint logs the same calls whatever the trace so far and the
    values of the handler's variables. *)
Lemma checkpoint_uniform (p : promise_state) :
  exists l p',
    forall rho st, checkpoint rho p st = (log st l, inr p').
Proof.
  destruct (queued p) as [e|] eqn:Q.
  - eexists _, _; intros rho st; exact (checkpoint_queued rho st Q).
  - exists [], p; intros rho st.
    now rewrite (checkpoint_idle rho st Q), log_nil.
Qed.

Lemma close_finally_uniform (w : world) (p : promise_state) (t : option string) :
  exists l p',
    forall rho r st,
      tmpDir st = t ->
      close_finally (with_rm w r) rho p st = (log st l, inr p').
Proof.
  destruct (checkpoint_uniform p) as (l & p' & C).
  exists (rm_calls t ++ l)%list, p'; intros rho r st <-.
  unfold close_finally.
  rewrite (bind_run _ (cleanup_run _ _)), C, log_log; reflexivity.
Qed.

Lemma on_close_uniform (w : world) (pdf : string) (code : option Z)
    (p : promise_state) (t : option string) :
  exists l p',
    forall rho r st,
      tmpDir st = t ->
      on_close (with_rm w r) rho pdf code p st = (log st l, inr p').
Proof.
  unfold on_close; destruct (code_nonzero code).
  - apply close_finally_uniform.
  - destruct (checkpoint_uniform p) as (l0 & p0 & C).
    assert (exists x, readFile_result w = x) as (rf & RF) by eauto.
    destruct rf as [e|buf].
    + destruct (close_finally_uniform w (reject e p0) t) as (l & p' & F).
      exists (ReadFile pdf :: l0 ++ l)%list, p'; intros rho r st T.
      rewrite (bind_run _ (emit_run _ _)), (bind_run _ (C _ _)).
      change (readFile_result (with_rm w r)) with (readFile_result w).
      rewrite RF, F by (now rewrite !tmpDir_log).
      rewrite !log_log; reflexivity.
    + destruct (close_finally_uniform w (resolve p0) t) as (l & p' & F).
      exists (ReadFile pdf :: l0
              ++ [SetHeader "Content-Type" "application/pdf";
                  SetHeader "Content-Disposition"
                    "attachment; filename=presentation.pdf";
                  Send buf] ++ l)%list, p'; intros rho r st T.
      rewrite (bind_run _ (emit_run _ _)), (bind_run _ (C _ _)).
      change (readFile_result (with_rm w r)) with (readFile_result w).
      rewrite RF.
      do 3 rewrite (bind_run _ (emit_run _ _)).
      rewrite F by (now rewrite !tmpDir_log).
      rewrite !log_log; reflexivity.
Qed.

(** The listeners log the same calls and leave the promise in the same
    state whatever the trace so far, the values of the handler's variables
    and the answer to [fs.rm]. *)
Lemma deliver_uniform (w : world) (pdf : string) (events : list proc_event) :
  forall (p : promise_state) (t : option string),
  exists l p',
    forall rho r st,
      tmpDir st = t ->
      deliver (with_rm w r) rho pdf events p st = (log st l, inr p').
Proof.
  induction events as [|ev rest IH]; intros p t.
  - exists [], p; intros rho r st _; simpl; unfold ret; now rewrite log_nil.
  - destruct ev as [chunk|chunk|e|code].
    + destruct (checkpoint_uniform (on_stderr chunk p)) as (l0 & p0 & C).
      destruct (IH p0 t) as (l & p' & D).
      exists (Event (StderrData chunk) :: l0 ++ l)%list, p'; intros rho r st T.
      simpl deliver.
      rewrite (bind_run _ (emit_run _ _)), (bind_run _ (C _ _)).
      rewrite D by (now rewrite !tmpDir_log).
      rewrite !log_log; reflexivity.
    + destruct (checkpoint_uniform (on_stdout chunk p)) as (l0 & p0 & C).
      destruct (IH p0 t) as (l & p' & D).
      exists (Event (StdoutData chunk) :: l0 ++ l)%list, p'; intros rho r st T.
      simpl deliver.
      rewrite (bind_run _ (emit_run _ _)), (bind_run _ (C _ _)).
      rewrite D by (now rewrite !tmpDir_log).
      rewrite !log_log; reflexivity.
    + destruct (checkpoint_uniform (reject e p)) as (l0 & p0 & C).
      destruct (IH p0 t) as (l & p' & D).
      exists (Event (ErrorEvent e) :: l0 ++ l)%list, p'; intros rho r st T.
      simpl deliver.
      rewrite (bind_run _ (emit_run _ _)), (bind_run _ (C _ _)).
      rewrite D by (now rewrite !tmpDir_log).
      rewrite !log_log; reflexivity.
    + destruct (on_close_uniform w pdf code p t) as (l & p' & C).
      exists (Event (CloseEvent code) :: l)%list, p'; intros rho r st T.
      simpl deliver.
      rewrite (bind_run _ (emit_run _ _)).
      rewrite C by (now rewrite !tmpDir_log).
      rewrite !log_log; reflexivity.
Qed.

Lemma run_promise_uniform (w : world) (pdf : string) (t : option string) :
  exists l r0,
    forall rho r args st,
      tmpDir st = t ->
      run_promise (with_rm w r) rho pdf args st
      = (log st (Spawn "node" args :: l), inr r0).
Proof.
  assert (exists x, spawn_result w = x) as (sr & S) by eauto.
  destruct sr as [e|events].
  - exists [Status 500], (Rejected scope_error); intros rho r args st _.
    now apply run_promise_spawn_throws with (e := e).
  - destruct (checkpoint_uniform fresh) as (l0 & p0 & C).
    destruct (deliver_uniform w pdf events p0 t) as (l & p' & D).
    exists (l0 ++ l)%list, (chained p'); intros rho r args st T.
    unfold run_promise.
    rewrite (bind_run _ (emit_run _ _)).
    change (spawn_result (with_rm w r)) with (spawn_result w); rewrite S.
    assert ((p1 <- checkpoint rho fresh ;;
             deliver (with_rm w r) rho pdf events p1) (log st [Spawn "node" args])
            = (log st (Spawn "node" args :: l0 ++ l), inr p')) as I.
    { rewrite (bind_run _ (C _ _)), D by (now rewrite !tmpDir_log).
      rewrite !log_log; reflexivity. }
    rewrite (bind_run _ I); reflexivity.
Qed.

Lemma staged_with_rm (v : variant) (cfg : config) (w : world)
    (body html options : value) (d : string) (args : list string)
    (r : error + unit) :
  staged v cfg w body html options d args ->
  staged v cfg (with_rm w r) body html options d args.
Proof. intros S; exact S. Qed.

(** X5. A failure of the removal of the working directory is not surfaced:
    the calls of the request and the state of the handler's promise are the
    same whatever [fs.rm] answers. *)
Theorem removal_failure_is_not_surfaced (v : variant) (cfg : config)
    (w : world) (body : value) (r : error + unit) :
  handle v cfg (with_rm w r) body = handle v cfg w body.
Proof.
  destruct (destructure body) as [e|[html options]] eqn:D.
  { now rewrite !(handle_no_body v cfg _ body e D). }
  destruct (truthy html) eqn:T.
  2:{ now rewrite !(handle_invalid v cfg _ D T). }
  destruct (mkdtemp_result w) as [e|d] eqn:MK.
  { rewrite (handle_mkdtemp_fails v cfg w _ _ _ e D T MK).
    now rewrite (handle_mkdtemp_fails v cfg (with_rm w r) _ _ _ e D T MK). }
  destruct (writeFile_result w) as [e|[]] eqn:WR.
  { rewrite (handle_write_fails v cfg w _ _ _ d e D T MK WR).
    now rewrite (handle_write_fails v cfg (with_rm w r) _ _ _ d e D T MK WR). }
  destruct (args_of v cfg d options) as [e|args] eqn:AR.
  { rewrite (handle_args_throw v cfg w _ _ _ d e D T MK WR AR).
    now rewrite (handle_args_throw v cfg (with_rm w r) _ _ _ d e D T MK WR AR). }
  assert (staged v cfg w body html options d args) as S
    by (unfold staged; auto).
  destruct (run_promise_uniform w (pdfPath cfg d) (Some d)) as (l & r0 & U).
  rewrite (handle_staged v cfg (with_rm w r) body html options d args l r0
             (staged_with_rm _ _ _ _ _ _ _ _ r S)
             (U (locals cfg d html options args) r args
                (staged_state cfg d html) eq_refl)).
  pose proof (U (locals cfg d html options args) (rm_result w) args
                (staged_state cfg d html) eq_refl) as U'.
  rewrite with_rm_same in U'.
  now rewrite (handle_staged v cfg w body html options d args l r0 S U').
Qed.

(** With a removal that fails, the successful conversion is unchanged. *)
Example pdf_is_sent_when_removal_fails :
  handle ServerJs sample_config
    (with_rm world_ok (inl (Error "EBUSY: resource busy or locked"))) sample_body
  = handle ServerJs sample_config world_ok sample_body.
Proof. reflexivity. Qed.

Lemma args_of_both (cfg : config) (d : string) (options : value) :
  (exists e, server_js_args cfg d options = inl e
             /\ part_000_args cfg d options = inl e) \/
  (exists rest,
      server_js_args cfg d options
      = inr (fixed_args cfg d ++ key_tokens ++ rest)%list
      /\ part_000_args cfg d options = inr (fixed_args cfg d ++ rest)%list).
Proof.
  rewrite (args_of_unified ServerJs cfg d options : server_js_args _ _ _ = _).
  rewrite (args_of_unified Part000 cfg d options : part_000_args _ _ _ = _).
  unfold unified_args; simpl navigation_keys_of.
  destruct (option_tokens options "size") as [e|size]; [left; eauto|].
  destruct (option_tokens options "pause") as [e|pause]; [left; eauto|].
  right; exists (size ++ pause)%list; split; reflexivity.
Qed.

(** X10. On the same request and the same world the handlers of the two
    files issue the same calls, but for the argument vector given to
    [spawn], and leave their promises in the same state; the vector of
    [server.js] is the other one with the two key tokens after the fixed
    part. *)
Theorem handlers_differ_in_spawn_arguments_only (cfg : config) (w : world)
    (body : value) :
  map strip_args (calls ServerJs cfg w body)
  = map strip_args (calls Part000 cfg w body) /\
  outcome ServerJs cfg w body = outcome Part000 cfg w body /\
  forall command args,
    In (Spawn command args) (calls ServerJs cfg w body) ->
    exists d rest,
      args = (fixed_args cfg d ++ key_tokens ++ rest)%list /\
      In (Spawn command (fixed_args cfg d ++ rest)) (calls Part000 cfg w body).
Proof.
  assert (forall v l r, handle v cfg w body = (l, r) ->
            forall c a, In (Spawn c a) (calls v cfg w body) -> In (Spawn c a) l)
    as IN by (intros v l r H c a; unfold calls; now rewrite H).
  unfold outcome.
  destruct (destructure body) as [e|[html options]] eqn:D.
  { pose proof (handle_no_body ServerJs cfg w body e D) as H1.
    pose proof (handle_no_body Part000 cfg w body e D) as H0.
    unfold calls at 1 2; rewrite H1, H0; repeat split.
    intros c a I; apply (IN _ _ _ H1) in I; simpl in I; intuition discriminate. }
  destruct (truthy html) eqn:T.
  2:{ pose proof (handle_invalid ServerJs cfg w D T) as H1.
      pose proof (handle_invalid Part000 cfg w D T) as H0.
      unfold calls at 1 2; rewrite H1, H0; repeat split.
      intros c a I; apply (IN _ _ _ H1) in I; simpl in I; intuition discriminate. }
  destruct (mkdtemp_result w) as [e|d] eqn:MK.
  { pose proof (handle_mkdtemp_fails ServerJs cfg w _ _ _ e D T MK) as H1.
    pose proof (handle_mkdtemp_fails Part000 cfg w _ _ _ e D T MK) as H0.
    unfold calls at 1 2; rewrite H1, H0; repeat split.
    intros c a I; apply (IN _ _ _ H1) in I; simpl in I; intuition discriminate. }
  assert (forall e c a,
             ~ In (Spawn c a)
                 ([Mkdtemp (join cfg (tmpdir cfg) "decktape-");
                   WriteFile (htmlPath cfg d) html; Status 500;
                   Json (conversion_error e)] ++ rm_calls (Some d))) as NS.
  { intros e c a I; simpl in I.
    destruct I as [I|[I|[I|[I|I]]]]; try discriminate.
    apply rm_calls_elements in I as (? & I); discriminate. }
  destruct (writeFile_result w) as [e|[]] eqn:WR.
  { pose proof (handle_write_fails ServerJs cfg w _ _ _ d e D T MK WR) as H1.
    pose proof (handle_write_fails Part000 cfg w _ _ _ d e D T MK WR) as H0.
    unfold calls at 1 2; rewrite H1, H0; repeat split.
    intros c a I; apply (IN _ _ _ H1) in I; now apply NS in I. }
  destruct (args_of_both cfg d options)
    as [(e & A1 & A0)|(rest & A1 & A0)].
  { pose proof (handle_args_throw ServerJs cfg w _ _ _ d e D T MK WR A1) as H1.
    pose proof (handle_args_throw Part000 cfg w _ _ _ d e D T MK WR A0) as H0.
    unfold calls at 1 2; rewrite H1, H0; repeat split.
    intros c a I; apply (IN _ _ _ H1) in I; now apply NS in I. }
  assert (staged ServerJs cfg w body html options d
            (fixed_args cfg d ++ key_tokens ++ rest)) as S1
    by (unfold staged; auto).
  assert (staged Part000 cfg w body html options d (fixed_args cfg d ++ rest))
    as S0 by (unfold staged; auto).
  destruct (run_promise_uniform w (pdfPath cfg d) (Some d)) as (l & r0 & U).
  pose proof (U (locals cfg d html options (fixed_args cfg d ++ key_tokens ++ rest))
                (rm_result w) (fixed_args cfg d ++ key_tokens ++ rest)%list
                (staged_state cfg d html) eq_refl) as U1.
  pose proof (U (locals cfg d html options (fixed_args cfg d ++ rest))
                (rm_result w) (fixed_args cfg d ++ rest)%list
                (staged_state cfg d html) eq_refl) as U0.
  rewrite with_rm_same in U1, U0.
  pose proof (handle_staged _ _ _ _ _ _ _ _ _ _ S1 U1) as H1.
  pose proof (handle_staged _ _ _ _ _ _ _ _ _ _ S0 U0) as H0.
  unfold calls at 1 2; rewrite H1, H0; repeat split.
  intros c a I.
  destruct (spawn_in_calls _ _ _ _ _ _ I)
    as (-> & h' & o' & d' & (D' & _ & MK' & _ & AR')).
  assert (d' = d /\ o' = options) as (-> & ->) by (split; congruence).
  simpl in AR'; rewrite A1 in AR'; injection AR' as <-.
  exists d, rest; split; [reflexivity|].
  unfold calls; rewrite H0; simpl; auto.
Qed.

Lemma handlers_differ_in_spawn_arguments_only_witness :
  exists d rest,
    ["/app/decktape.js"; "--chrome-path"; "/usr/bin/chromium-browser";
     "--chrome-arg=--no-sandbox"; "--chrome-arg=--disable-gpu"; "generic";
     "file:///tmp/decktape-Ab12Cd/input.html"; "/tmp/decktape-Ab12Cd/output.pdf";
     "--key=ArrowDown"; "--key=ArrowRight"]
    = (fixed_args sample_config d ++ key_tokens ++ rest)%list /\
    In (Spawn "node" (fixed_args sample_config d ++ rest))
      (calls Part000 sample_config world_ok sample_body).
Proof.
  destruct (handlers_differ_in_spawn_arguments_only sample_config world_ok
              sample_body) as (_ & _ & A).
  apply A; simpl; right; right; left; reflexivity.
Defined.

(* ================================================================== *)
(** ** One response, the request's own files *)

Lemma no_body_in_rm [rm : list effect] :
  Forall (fun e => is_rm e = true) rm -> filter is_body rm = [].
Proof.
  induction 1 as [|e rm E _ IH]; [reflexivity|].
  destruct e; try discriminate; exact IH.
Qed.

Lemma awaits_one_body [rm : list effect] [pdf : string] [l : list effect] :
  awaits rm pdf l ->
  Forall (fun e => is_rm e = true) rm ->
  length (filter is_body l) <= 1.
Proof.
  intros A RM; pose proof (no_body_in_rm RM) as N.
  induction A; simpl; rewrite ?filter_app, ?N; simpl; auto.
Qed.

(** X6. A request is answered by at most one body: over all its calls the
    handler issues [res.json] or [res.send] at most once. *)
Theorem at_most_one_body (v : variant) (cfg : config) (w : world)
    (body : value) :
  length (filter is_body (calls v cfg w body)) <= 1.
Proof.
  pose proof (handle_path v cfg w body) as P.
  inversion P as [x D|h o D T|h o x D T MK|h o d x D T MK WR
                 |h o d x D T MK WR AR|h o d a x S SP
                 |h o d a events l r S SP A]; simpl; auto.
  - now rewrite (no_body_in_rm (rm_calls_are_rm (Some d))).
  - now rewrite (no_body_in_rm (rm_calls_are_rm (Some d))).
  - exact (awaits_one_body A (rm_calls_are_rm _)).
Qed.

Lemma destructure_html (body html options : value) :
  destructure body = inr (html, options) -> get body "html" = Some html.
Proof.
  unfold destructure.
  destruct (get body "html") as [h|]; [|discriminate].
  destruct (get body "options") as [o|]; [|discriminate].
  congruence.
Qed.

(** X11. The handler works on the files of its own working directory only:
    the one file it writes is [input.html] there, holding the [html] of the
    request; the one file it reads is [output.pdf] there; what it removes
    is the directory [fs.mkdtemp] returned. *)
Theorem own_files_only (v : variant) (cfg : config) (w : world)
    (body : value) :
  (forall file data,
      In (WriteFile file data) (calls v cfg w body) ->
      exists d, mkdtemp_result w = inr d /\ file = join cfg d "input.html"
                /\ get body "html" = Some data) /\
  (forall file,
      In (ReadFile file) (calls v cfg w body) ->
      exists d, mkdtemp_result w = inr d /\ file = join cfg d "output.pdf") /\
  (forall dir,
      In (Rm dir) (calls v cfg w body) -> mkdtemp_result w = inr dir).
Proof.
  assert (forall d e, In e (rm_calls (Some d)) -> e = Rm d) as RMD.
  { intros d e; unfold rm_calls, tmpDir_truthy.
    destruct (str_truthy d); simpl; intuition. }
  pose proof (handle_path v cfg w body) as P.
  inversion P as [x D|h o D T|h o x D T MK|h o d x D T MK WR
                 |h o d x D T MK WR AR|h o d a x S SP
                 |h o d a events l r S SP A];
    try destruct S as (D & T & MK & WR & AR);
    (split; [|split]); intros; simpl in *;
    repeat match goal with
           | H : _ \/ _ |- _ => destruct H
           | H : False |- _ => destruct H
           | H : In _ (rm_calls (Some _)) |- _ => apply RMD in H
           | H : In _ l |- _ =>
               destruct (awaits_elements A _ H)
                 as [R|[(? & R)|[R|[R|[(? & ? & R)|(? & R)]]]]];
               clear H; try apply RMD in R
           end;
    try discriminate;
    repeat match goal with
           | H : @eq effect _ _ |- _ => inversion H; clear H; subst
           end;
    unfold htmlPath, pdfPath; eauto using destructure_html.
Qed.

Lemma own_files_only_witness :
  mkdtemp_result world_exit1 = inr "/tmp/decktape-Ab12Cd".
Proof.
  destruct (own_files_only ServerJs sample_config world_exit1 sample_body)
    as (_ & _ & R).
  apply R; simpl; do 6 right; left; reflexivity.
Defined.

(* ================================================================== *)
(** ** A child that never closes, a child that fails to start *)

Lemma run_promise_chunks_only (w : world) (rho : list (string * value))
    (pdf : string) (args : list string) (data : list proc_event) (st : state) :
  spawn_result w = inr data ->
  forallb is_data data = true ->
  run_promise w rho pdf args st
  = (log st (Spawn "node" args :: map Event data), inr Pending).
Proof.
  intros S D.
  destruct (run_promise_spawned w rho pdf args data st S) as (p & E & R).
  pose proof (deliver_data w rho pdf data [] fresh (log st [Spawn "node" args])
                D eq_refl) as DD.
  rewrite app_nil_r in DD; simpl deliver in DD; unfold ret in DD.
  rewrite R, DD; rewrite DD in E; simpl fst in *.
  injection E as <-.
  now rewrite log_log, absorb_chained.
Qed.

(** X7. There is no timeout: while the child only writes to its streams,
    the handler issues no call on [res], does not remove the working
    directory, and its promise stays pending. *)
Theorem silent_while_child_runs (v : variant) (cfg : config) (w : world)
    (body html options : value) (d : string) (args : list string)
    (data : list proc_event) :
  staged v cfg w body html options d args ->
  spawn_result w = inr data ->
  forallb is_data data = true ->
  handle v cfg w body
  = ((staging_calls cfg d html args ++ map Event data)%list, Pending).
Proof.
  intros S SP D.
  apply (handle_staged _ _ _ _ _ _ _ _ _ _ S).
  now apply run_promise_chunks_only.
Qed.

Lemma silent_while_child_runs_witness :
  handle Part000 sample_config world_hang sample_body
  = ([Mkdtemp "/tmp/decktape-";
      WriteFile "/tmp/decktape-Ab12Cd/input.html" (VStr "<h1>Hello</h1>");
      Spawn "node"
        ["/app/decktape.js"; "--chrome-path"; "/usr/bin/chromium-browser";
         "--chrome-arg=--no-sandbox"; "--chrome-arg=--disable-gpu"; "generic";
         "file:///tmp/decktape-Ab12Cd/input.html";
         "/tmp/decktape-Ab12Cd/output.pdf"];
      Event (StdoutData "Loading page")],
     Pending).
Proof.
  apply (silent_while_child_runs Part000 sample_config world_hang sample_body
           (VStr "<h1>Hello</h1>") (VObj []) sample_dir
           ["/app/decktape.js"; "--chrome-path"; "/usr/bin/chromium-browser";
            "--chrome-arg=--no-sandbox"; "--chrome-arg=--disable-gpu"; "generic";
            "file:///tmp/decktape-Ab12Cd/input.html";
            "/tmp/decktape-Ab12Cd/output.pdf"]
           [StdoutData "Loading page"]).
  - repeat split.
  - reflexivity.
  - reflexivity.
Defined.

(** A promise that is settled stays as it is. *)
Lemma reject_settled (e : error) (p : promise_state) :
  promise p <> Pending -> reject e p = p.
Proof. unfold reject; destruct (promise p); congruence. Qed.

(** X8. When the child reports ['error'] and later closes with a non-zero
    code (as for a command that is not found), the rejection callback runs
    once, right after the error: the close listener finds the promise
    settled, issues the removal of the working directory and nothing else.
    No body is sent and the handler's promise is rejected. *)
Theorem error_then_close (v : variant) (cfg : config) (w : world)
    (body html options : value) (d : string) (args : list string)
    (before after rest : list proc_event) (e : error) (code : option Z) :
  staged v cfg w body html options d args ->
  spawn_result w
  = inr (before ++ ErrorEvent e :: after ++ CloseEvent code :: rest)%list ->
  forallb is_data before = true ->
  forallb is_data after = true ->
  code_nonzero code = true ->
  handle v cfg w body
  = ((staging_calls cfg d html args
      ++ map Event before ++ Event (ErrorEvent e) :: Status 500
         :: map Event after ++ Event (CloseEvent code) :: rm_calls (Some d))%list,
     Rejected (ReferenceError "stdout is not defined")).
Proof.
  intros S SP DB DA NZ.
  apply (handle_staged _ _ _ _ _ _ _ _ _ _ S).
  set (rho := locals cfg d html options args).
  set (pdf := pdfPath cfg d).
  set (st := staged_state cfg d html).
  destruct (run_promise_spawned w rho pdf args _ st SP) as (p & E & R).
  rewrite R; clear R.
  set (p1 := absorb before fresh).
  set (p2 := {| stderr := stderr p1; stdout := stdout p1;
                promise := Rejected e; queued := None;
                chained := Rejected scope_error |}).
  set (p3 := absorb after p2).
  assert (deliver w rho pdf
            (before ++ ErrorEvent e :: after ++ CloseEvent code :: rest) fresh
            (log st [Spawn "node" args])
          = (log st (Spawn "node" args
                     :: map Event before ++ Event (ErrorEvent e) :: Status 500
                        :: map Event after ++ Event (CloseEvent code)
                           :: rm_calls (Some d)), inr p3)) as DD.
  { rewrite deliver_data by auto.
    cbn [deliver].
    rewrite (bind_run _ (emit_run _ _)).
    assert (promise p1 = Pending) as P1 by (unfold p1; now rewrite absorb_promise).
    rewrite (bind_run _ (checkpoint_queued rho (p := reject e p1) (e := e) _
                           ltac:(now rewrite (reject_pending _ _ P1)))).
    rewrite (reject_pending _ _ P1); cbn [stderr stdout promise].
    fold p2.
    rewrite deliver_data by auto.
    cbn [deliver].
    rewrite (bind_run _ (emit_run _ _)).
    fold p3.
    assert (promise p3 <> Pending) as P3
      by (unfold p3; rewrite absorb_promise; discriminate).
    assert (queued p3 = None) as Q3 by (unfold p3; now rewrite absorb_queued).
    unfold on_close, close_finally; rewrite NZ.
    rewrite (reject_settled _ _ P3).
    rewrite (bind_run _ (cleanup_run _ _)).
    rewrite (checkpoint_idle rho _ Q3).
    rewrite !log_log, !tmpDir_log; reflexivity. }
  rewrite DD; simpl fst.
  rewrite DD in E; injection E as <-.
  unfold p3; rewrite absorb_chained; reflexivity.
Qed.

Lemma error_then_close_witness :
  handle ServerJs sample_config world_enoent sample_body
  = ([Mkdtemp "/tmp/decktape-";
      WriteFile "/tmp/decktape-Ab12Cd/input.html" (VStr "<h1>Hello</h1>");
      Spawn "node"
        ["/app/decktape.js"; "--chrome-path"; "/usr/bin/chromium-browser";
         "--chrome-arg=--no-sandbox"; "--chrome-arg=--disable-gpu"; "generic";
         "file:///tmp/decktape-Ab12Cd/input.html";
         "/tmp/decktape-Ab12Cd/output.pdf"; "--key=ArrowDown"; "--key=ArrowRight"];
      Event (ErrorEvent (Error "spawn node ENOENT")); Status 500;
      Event (CloseEvent (Some (-2)%Z)); Rm "/tmp/decktape-Ab12Cd"],
     Rejected (ReferenceError "stdout is not defined")).
Proof.
  apply (error_then_close ServerJs sample_config world_enoent sample_body
           (VStr "<h1>Hello</h1>") (VObj []) sample_dir
           ["/app/decktape.js"; "--chrome-path"; "/usr/bin/chromium-browser";
            "--chrome-arg=--no-sandbox"; "--chrome-arg=--disable-gpu"; "generic";
            "file:///tmp/decktape-Ab12Cd/input.html";
            "/tmp/decktape-Ab12Cd/output.pdf"; "--key=ArrowDown";
            "--key=ArrowRight"]
           [] [] [] (Error "spawn node ENOENT") (Some (-2)%Z)).
  - repeat split.
  - reflexivity.
  - reflexivity.
  - reflexivity.
  - reflexivity.
Defined.

(* ================================================================== *)
(** ** How the handler's promise ends *)

Lemma settle_reject (rho : list (string * value)) (e : error)
    (p : promise_state) (st : state) :
  queued p = None ->
  (chained p = Pending -> promise p = Pending) ->
  plain_outcome (chained p) ->
  exists st' p',
    checkpoint rho (reject e p) st = (st', inr p') /\
    queued p' = None /\ promise p' <> Pending /\ chained p' <> Pending /\
    plain_outcome (chained p').
Proof.
  intros Q I O.
  destruct (promise p) eqn:P.
  - rewrite (checkpoint_queued rho (p := reject e p) (e := e) st)
      by now rewrite (reject_pending _ _ P).
    eexists _, _; split; [reflexivity|]; simpl.
    rewrite (reject_pending _ _ P); simpl.
    repeat split; try discriminate; unfold plain_outcome; auto.
  - assert (reject e p = p) as -> by (apply reject_settled; congruence).
    rewrite (checkpoint_idle rho st Q).
    exists st, p; repeat split; auto; try congruence.
    intros C; apply I in C; congruence.
  - assert (reject e p = p) as -> by (apply reject_settled; congruence).
    rewrite (checkpoint_idle rho st Q).
    exists st, p; repeat split; auto; try congruence.
    intros C; apply I in C; congruence.
Qed.

(** The close listener settles the promise, if it is not settled yet. *)
Lemma on_close_settles (w : world) (rho : list (string * value)) (pdf : string)
    (code : option Z) (p : promise_state) (st : state) :
  queued p = None ->
  (chained p = Pending -> promise p = Pending) ->
  plain_outcome (chained p) ->
  exists st' p',
    on_close w rho pdf code p st = (st', inr p') /\
    chained p' <> Pending /\ plain_outcome (chained p').
Proof.
  intros Q I O; unfold on_close, close_finally.
  destruct (code_nonzero code).
  - rewrite (bind_run _ (cleanup_run _ _)).
    destruct (settle_reject rho (decktape_failed p) p
                (log st (rm_calls (tmpDir st))) Q I O)
      as (st' & p' & E & _ & _ & N & O').
    exists st', p'; auto.
  - rewrite (bind_run _ (emit_run _ _)).
    rewrite (bind_run _ (checkpoint_idle rho _ Q)).
    destruct (readFile_result w) as [e|buf].
    + rewrite (bind_run _ (cleanup_run _ _)).
      destruct (settle_reject rho e p
                  (log (log st [ReadFile pdf])
                     (rm_calls (tmpDir (log st [ReadFile pdf])))) Q I O)
        as (st' & p' & E & _ & _ & N & O').
      exists st', p'; auto.
    + do 3 rewrite (bind_run _ (emit_run _ _)).
      rewrite (bind_run _ (cleanup_run _ _)).
      rewrite (checkpoint_idle rho (p := resolve p) _)
        by now rewrite queued_resolve.
      eexists _, (resolve p); split; [reflexivity|].
      unfold resolve; destruct (promise p) eqn:P; simpl.
      * split; [discriminate | unfold plain_outcome; auto].
      * split; [intros C; apply I in C; congruence | exact O].
      * split; [intros C; apply I in C; congruence | exact O].
Qed.

(** After the child's events the promise is pending only if it was pending
    before and every event was a chunk. *)
Lemma deliver_settles (w : world) (rho : list (string * value)) (pdf : string)
    (events : list proc_event) :
  forall (p : promise_state) (st : state),
    queued p = None ->
    (chained p = Pending -> promise p = Pending) ->
    plain_outcome (chained p) ->
    exists st' p',
      deliver w rho pdf events p st = (st', inr p') /\
      plain_outcome (chained p') /\
      (chained p' = Pending ->
       chained p = Pending /\ forallb is_data events = true).
Proof.
  induction events as [|ev rest IH]; intros p st Q I O.
  - exists st, p; simpl; auto.
  - simpl deliver; rewrite (bind_run _ (emit_run _ _)).
    destruct ev as [chunk|chunk|e|code].
    + rewrite (bind_run _ (checkpoint_idle rho (p := on_stderr chunk p) _ Q)).
      destruct (IH (on_stderr chunk p) (log st [Event (StderrData chunk)]) Q I O)
        as (st' & p' & E & O' & D).
      exists st', p'; auto.
    + rewrite (bind_run _ (checkpoint_idle rho (p := on_stdout chunk p) _ Q)).
      destruct (IH (on_stdout chunk p) (log st [Event (StdoutData chunk)]) Q I O)
        as (st' & p' & E & O' & D).
      exists st', p'; auto.
    + destruct (settle_reject rho e p (log st [Event (ErrorEvent e)]) Q I O)
        as (st0 & p0 & E0 & Q0 & P0 & N0 & O0).
      rewrite (bind_run _ E0).
      destruct (IH p0 st0 Q0 ltac:(intros C; now elim N0) O0)
        as (st' & p' & E & O' & D).
      exists st', p'; split; [exact E | split; [exact O'|]].
      intros C; apply D in C as (C & _); now elim N0.
    + destruct (on_close_settles w rho pdf code p
                  (log st [Event (CloseEvent code)]) Q I O)
        as (st' & p' & E & N & O').
      exists st', p'; split; [exact E | split; [exact O'|]].
      intros C; now elim N.
Qed.

(** X12. The handler's promise ends pending, fulfilled, or rejected with the
    [ReferenceError] of the rejection callback: no error of [fs] or of the
    child process is what it is rejected with. It stays pending only when
    the renderer was spawned and neither closed nor reported an error. *)
Theorem promise_outcomes (v : variant) (cfg : config) (w : world)
    (body : value) :
  (outcome v cfg w body = Pending \/
   outcome v cfg w body = Fulfilled \/
   outcome v cfg w body = Rejected (ReferenceError "stdout is not defined")) /\
  (outcome v cfg w body = Pending ->
   exists html options d args data,
     staged v cfg w body html options d args /\
     spawn_result w = inr data /\
     forallb is_data data = true).
Proof.
  unfold outcome.
  destruct (destructure body) as [e|[html options]] eqn:D.
  { rewrite (handle_no_body v cfg w body e D); simpl; split;
      [auto | discriminate]. }
  destruct (truthy html) eqn:T.
  2:{ rewrite (handle_invalid v cfg w D T); simpl; split;
        [auto | discriminate]. }
  destruct (mkdtemp_result w) as [e|d] eqn:MK.
  { rewrite (handle_mkdtemp_fails v cfg w _ _ _ e D T MK); simpl; split;
      [auto | discriminate]. }
  destruct (writeFile_result w) as [e|[]] eqn:WR.
  { rewrite (handle_write_fails v cfg w _ _ _ d e D T MK WR); simpl; split;
      [auto | discriminate]. }
  destruct (args_of v cfg d options) as [e|args] eqn:AR.
  { rewrite (handle_args_throw v cfg w _ _ _ d e D T MK WR AR); simpl; split;
      [auto | discriminate]. }
  assert (staged v cfg w body html options d args) as S
    by (unfold staged; auto).
  destruct (spawn_result w) as [e|events] eqn:SP.
  { rewrite (handle_spawn_throws _ _ _ _ _ _ _ _ _ S SP); simpl; split;
      [auto | discriminate]. }
  set (rho := locals cfg d html options args).
  set (st := staged_state cfg d html).
  destruct (run_promise_total w rho (pdfPath cfg d) args st)
    as (l & r & R & _).
  destruct (run_promise_spawned w rho (pdfPath cfg d) args events st SP)
    as (p & E & R').
  destruct (deliver_settles w rho (pdfPath cfg d) events fresh
              (log st [Spawn "node" args]) eq_refl (fun _ => eq_refl)
              (or_introl eq_refl))
    as (st' & p' & E' & O & PD).
  rewrite E' in E; injection E as <-.
  rewrite R in R'; injection R' as _ ->.
  rewrite (handle_staged _ _ _ _ _ _ _ _ _ _ S R); simpl snd.
  split; [exact O|].
  intros C; apply PD in C as (_ & C).
  exists html, options, d, args, events; auto.
Qed.

Lemma promise_outcomes_witness :
  exists html options d args data,
    staged Part000 sample_config world_hang sample_body html options d args /\
    spawn_result world_hang = inr data /\
    forallb is_data data = true.
Proof.
  destruct (promise_outcomes Part000 sample_config world_hang sample_body)
    as (_ & P).
  apply P; reflexivity.
Defined.

(* ================================================================== *)
(** ** Browser flags *)

(** X13. The browser flags are the pieces of the configured string (or of
    the default) between its commas: joined by commas they give that string
    back, there is at least one, and none contains a comma, so a flag with
    a comma in it cannot be configured. *)
Theorem chrome_flags_round_trip (cfg : config) :
  String.concat "," (chromeFlags cfg)
  = env_or (CHROME_FLAGS cfg) "--no-sandbox,--disable-gpu" /\
  chromeFlags cfg <> [] /\
  Forall (fun flag => contains "," flag = false) (chromeFlags cfg).
Proof.
  unfold chromeFlags; split; [apply concat_split|].
  split; [apply split_nonempty | apply split_pieces].
Qed.

(** A flag with a comma becomes two tokens. *)
Example window_size_flag_is_split :
  map chrome_arg (split "," "--window-size=800,600")
  = ["--chrome-arg=--window-size=800"; "--chrome-arg=600"].
Proof. reflexivity. Qed.

(* ================================================================== *)
(** ** The middleware of [server.js] *)

Lemma awaits_headers [rm : list effect] [pdf : string] [l : list effect] :
  awaits rm pdf l ->
  forall n x, In (SetHeader n x) l ->
    In (SetHeader n x) rm \/ n = "Content-Type" \/ n = "Content-Disposition".
Proof.
  induction 1; intros n x I; simpl in I;
    repeat match goal with
           | H : _ \/ _ |- _ => destruct H
           | H : False |- _ => destruct H
           | H : In _ (_ ++ _) |- _ => apply in_app_or in H
           | H : In _ [_] |- _ => simpl in H
           | H : @eq effect _ _ |- _ => inversion H; clear H; subst
           end; auto.
Qed.

(** The handler sets two headers only. *)
Lemma handler_headers (v : variant) (cfg : config) (w : world) (body : value)
    (n x : string) :
  In (SetHeader n x) (calls v cfg w body) ->
  n = "Content-Type" \/ n = "Content-Disposition".
Proof.
  intros I.
  pose proof (handle_path v cfg w body) as P.
  inversion P as [e D|h o D T|h o e D T MK|h o d e D T MK WR
                 |h o d e D T MK WR AR|h o d a e S SP
                 |h o d a events l r S SP A];
    match goal with H : _ = calls v cfg w body |- _ => rewrite <- H in I end;
    simpl in I;
    repeat match goal with
           | H : _ \/ _ |- _ => destruct H
           | H : False |- _ => destruct H
           | H : In _ (rm_calls _) |- _ =>
               apply rm_calls_elements in H as (? & H)
           end; try discriminate.
  match goal with
  | I' : In (SetHeader n x) l |- _ =>
      destruct (awaits_headers A _ _ I') as [R|R]; [|exact R]
  end.
  apply rm_calls_elements in R as (? & R); discriminate.
Qed.

Lemma header_of_app (name : string) (pre rest : list answer) :
  header_of name (pre ++ rest)
  = match header_of name rest with
    | Some y => Some y
    | None => header_of name pre
    end.
Proof.
  induction pre as [|a pre IH]; simpl.
  - now destruct (header_of name rest).
  - destruct a as [[]| | |]; try exact IH.
    rewrite IH; now destruct (header_of name rest).
Qed.

Lemma header_of_none (name : string) (l : list answer) :
  (forall n x, In (Call (SetHeader n x)) l -> n <> name) ->
  header_of name l = None.
Proof.
  induction l as [|a l IH]; intros H; [reflexivity|]; simpl.
  assert (header_of name l = None) as N
    by (apply IH; intros n x I; apply (H n x); now right).
  destruct a as [[]| | |]; try exact N.
  rewrite N.
  destruct (String.eqb name0 name) eqn:E; [|reflexivity].
  apply String.eqb_eq in E; elim (H name0 val); [now left | exact E].
Qed.

(** X14. In [server.js] every response carries the five headers of the
    first middleware with the values it sets: they are set before anything
    else is called, and nothing after it (body parser, routes, the handler
    on any of its paths) sets one of them again. A preflight request is
    answered by them and [sendStatus(200)] alone: no body is parsed and no
    route runs. *)
Theorem cors_headers_on_every_response (cfg : config) (w : world)
    (method : string) (r : route) (parsed : error + value) :
  Forall (fun h => header_of (fst h) (server_js_app cfg w method r parsed)
                   = Some (snd h)) cors_headers /\
  server_js_app cfg w "OPTIONS" r parsed
  = (map (fun h => Call (SetHeader (fst h) (snd h))) cors_headers
     ++ [SendStatus 200])%list.
Proof.
  split; [|reflexivity].
  unfold server_js_app, cors.
  set (rest := if String.eqb method "OPTIONS" then [SendStatus 200]
               else body_parser parsed
                      (fun body => logging (routes ServerJs cfg w r body))).
  assert (forall n x, In (Call (SetHeader n x)) rest ->
            n = "Content-Type" \/ n = "Content-Disposition") as H.
  { intros n x I; unfold rest in I.
    destruct (String.eqb method "OPTIONS");
      [simpl in I; intuition discriminate|].
    destruct parsed as [e|body]; simpl in I; [intuition discriminate|].
    unfold logging, routes in I; destruct r; simpl in I;
      try (intuition discriminate).
    apply in_map_iff in I as (e & E & I); injection E as ->.
    exact (handler_headers _ _ _ _ _ _ I). }
  repeat constructor; cbn [fst snd];
    rewrite header_of_app, header_of_none;
    try reflexivity;
    intros n x I; apply H in I as [-> | ->]; discriminate.
Qed.

(* ================================================================== *)
(** ** Each call once *)

Lemma count_app (f : effect -> bool) (a b : list effect) :
  count f (a ++ b) = count f a + count f b.
Proof. unfold count; now rewrite filter_app, length_app. Qed.

Lemma count_rm_calls (f : effect -> bool) (t : option string) :
  count f (rm_calls t) <= 1.
Proof.
  unfold rm_calls; destruct (tmpDir_truthy t); unfold count; simpl;
    [destruct (f (Rm s)); simpl|]; lia.
Qed.

Lemma count_not_rm (f : effect -> bool) (t : option string) :
  (forall d, f (Rm d) = false) -> count f (rm_calls t) = 0.
Proof.
  intros H; unfold rm_calls; destruct (tmpDir_truthy t); unfold count; simpl;
    [now rewrite H | reflexivity].
Qed.

Lemma count_cons (f : effect -> bool) (x : effect) (l : list effect) :
  count f (x :: l) = (if f x then 1 else 0) + count f l.
Proof. unfold count; simpl; now destruct (f x). Qed.

Lemma count_nil (f : effect -> bool) : count f [] = 0.
Proof. reflexivity. Qed.

Lemma awaits_counts (t : option string) (pdf : string) (l : list effect) :
  awaits (rm_calls t) pdf l ->
  count is_read l <= 1 /\ count is_rm l <= 1 /\
  count is_spawn l = 0 /\ count is_mkdtemp l = 0 /\ count is_write l = 0.
Proof.
  pose proof (count_rm_calls is_rm t) as R.
  pose proof (count_not_rm is_read t (fun _ => eq_refl)) as N1.
  pose proof (count_not_rm is_spawn t (fun _ => eq_refl)) as N2.
  pose proof (count_not_rm is_mkdtemp t (fun _ => eq_refl)) as N3.
  pose proof (count_not_rm is_write t (fun _ => eq_refl)) as N4.
  induction 1;
    try (destruct IHawaits as (? & ? & ? & ? & ?));
    rewrite ?count_cons, ?count_app, ?count_cons, ?count_nil;
    cbn [is_read is_rm is_spawn is_mkdtemp is_write];
    repeat split; lia.
Qed.

(** X16. Within one request each of [fs.mkdtemp], [fs.writeFile], [spawn],
    [fs.readFile] and [fs.rm] is called at most once. *)
Theorem each_call_at_most_once (v : variant) (cfg : config) (w : world)
    (body : value) :
  count is_mkdtemp (calls v cfg w body) <= 1 /\
  count is_write (calls v cfg w body) <= 1 /\
  count is_spawn (calls v cfg w body) <= 1 /\
  count is_read (calls v cfg w body) <= 1 /\
  count is_rm (calls v cfg w body) <= 1.
Proof.
  pose proof (handle_path v cfg w body) as P.
  inversion P as [x D|h o D T|h o x D T MK|h o d x D T MK WR
                 |h o d x D T MK WR AR|h o d a x S SP
                 |h o d a events l r S SP A];
    try (pose proof (count_rm_calls is_rm (Some d)) as R;
         pose proof (count_not_rm is_read (Some d) (fun _ => eq_refl)) as N1;
         pose proof (count_not_rm is_spawn (Some d) (fun _ => eq_refl)) as N2;
         pose proof (count_not_rm is_mkdtemp (Some d) (fun _ => eq_refl)) as N3;
         pose proof (count_not_rm is_write (Some d) (fun _ => eq_refl)) as N4);
    try (destruct (awaits_counts _ _ _ A) as (? & ? & ? & ? & ?));
    unfold staging_calls;
    rewrite ?count_app, ?count_cons, ?count_nil;
    cbn [is_read is_rm is_spawn is_mkdtemp is_write];
    repeat split; lia.
Qed.

(* ================================================================== *)
(** ** Staging failures, buffers, and the close event *)

(** X2. When [input.html] cannot be written, or the argument vector cannot
    be built, the request is answered with status 500 and the JSON object
    that carries the message of the error; then the working directory is
    removed. The renderer is not spawned and the handler's promise is
    fulfilled. *)
Theorem staging_failure_response (v : variant) (cfg : config) (w : world)
    (body html options : value) (d : string) (e : error) :
  destructure body = inr (html, options) ->
  truthy html = true ->
  mkdtemp_result w = inr d ->
  d <> "" ->
  writeFile_result w = inl e \/
  (writeFile_result w = inr tt /\ args_of v cfg d options = inl e) ->
  handle v cfg w body
  = ([Mkdtemp (join cfg (tmpdir cfg) "decktape-");
      WriteFile (htmlPath cfg d) html;
      Status 500;
      Json (VObj [("error", VStr "PDF conversion failed");
                  ("details", VStr (message e))]);
      Rm d],
     Fulfilled).
Proof.
  intros D T MK N [WR|(WR & AR)].
  - rewrite (handle_write_fails v cfg w _ _ _ d e D T MK WR).
    now rewrite (rm_calls_truthy N).
  - rewrite (handle_args_throw v cfg w _ _ _ d e D T MK WR AR).
    now rewrite (rm_calls_truthy N).
Qed.

Lemma staging_failure_response_witness :
  handle Part000 sample_config world_write_fails sample_body
  = ([Mkdtemp "/tmp/decktape-";
      WriteFile "/tmp/decktape-Ab12Cd/input.html" (VStr "<h1>Hello</h1>");
      Status 500;
      Json (VObj [("error", VStr "PDF conversion failed");
                  ("details", VStr "ENOSPC: no space left on device")]);
      Rm "/tmp/decktape-Ab12Cd"],
     Fulfilled).
Proof.
  apply (staging_failure_response Part000 sample_config world_write_fails
           sample_body (VStr "<h1>Hello</h1>") (VObj [])
           "/tmp/decktape-Ab12Cd" (Error "ENOSPC: no space left on device"));
    try reflexivity.
  - discriminate.
  - left; reflexivity.
Defined.

Example interleaved_chunks :
  stderr (absorb [StdoutData "a"; StderrData "x"; StdoutData "b";
                  StderrData "y"] fresh) = "xy" /\
  stdout (absorb [StdoutData "a"; StderrData "x"; StdoutData "b";
                  StderrData "y"] fresh) = "ab".
Proof. split; reflexivity. Qed.

Lemma chunks_have_no_close (events : list proc_event) :
  forallb is_data events = true -> existsb is_close events = false.
Proof.
  induction events as [|[c|c|e|code] rest IH]; simpl; auto; discriminate.
Qed.

(** X15. Once the child's close event arrives, whatever the exit code,
    whatever came before it and whether or not [output.pdf] can be read,
    the removal of the working directory is issued and the handler's
    promise is settled. *)
Theorem close_settles_and_cleans_up (v : variant) (cfg : config) (w : world)
    (body html options : value) (d : string) (args : list string)
    (events : list proc_event) :
  staged v cfg w body html options d args ->
  spawn_result w = inr events ->
  existsb is_close events = true ->
  d <> "" ->
  In (Rm d) (calls v cfg w body) /\ outcome v cfg w body <> Pending.
Proof.
  intros S SP C N.
  split; [exact (directory_removed_after_close _ _ _ _ _ _ _ _ _ S SP C N)|].
  set (rho := locals cfg d html options args).
  set (st := staged_state cfg d html).
  destruct (run_promise_total w rho (pdfPath cfg d) args st)
    as (l & r & R & _).
  destruct (run_promise_spawned w rho (pdfPath cfg d) args events st SP)
    as (p & E & R').
  destruct (deliver_settles w rho (pdfPath cfg d) events fresh
              (log st [Spawn "node" args]) eq_refl (fun _ => eq_refl)
              (or_introl eq_refl))
    as (st' & p' & E' & _ & PD).
  rewrite E' in E; injection E as <-.
  rewrite R in R'; injection R' as _ ->.
  unfold outcome; rewrite (handle_staged _ _ _ _ _ _ _ _ _ _ S R); simpl snd.
  intros P; apply PD in P as (_ & P).
  apply chunks_have_no_close in P; congruence.
Qed.

Lemma close_settles_and_cleans_up_witness :
  In (Rm "/tmp/decktape-Ab12Cd")
    (calls ServerJs sample_config world_no_pdf sample_body) /\
  outcome ServerJs sample_config world_no_pdf sample_body <> Pending.
Proof.
  apply (close_settles_and_cleans_up ServerJs sample_config world_no_pdf
           sample_body (VStr "<h1>Hello</h1>") (VObj []) "/tmp/decktape-Ab12Cd"
           ["/app/decktape.js"; "--chrome-path"; "/usr/bin/chromium-browser";
            "--chrome-arg=--no-sandbox"; "--chrome-arg=--disable-gpu"; "generic";
            "file:///tmp/decktape-Ab12Cd/input.html";
            "/tmp/decktape-Ab12Cd/output.pdf"; "--key=ArrowDown";
            "--key=ArrowRight"]
           [CloseEvent (Some 0%Z)]).
  - repeat split.
  - reflexivity.
  - reflexivity.
  - discriminate.
Defined.

(* ================================================================== *)
(** ** Requests without a usable [html] *)




(* ================================================================== *)
(** ** Truthy values that are not strings *)




(* ================================================================== *)
(** ** Order of the calls, on every path *)










(* ================================================================== *)
(** ** The stream buffers at a failing close *)

(** X9. When the child writes chunks to its two streams, in any
    interleaving, and then closes with a code other than 0, the listeners
    issue no call but the removal of the working directory and the status
    of the rejection callback; at the end [stderr] and [stdout] hold the
    chunks of their own stream in order of arrival, and the promise is
    rejected with the message "Decktape failed: " followed by the text of
    the error stream, or by the text of the output stream when the error
    stream is empty. Events after the close are not delivered. *)
Theorem close_rejects_with_stream_text (w : world)
    (rho : list (string * value)) (pdf : string)
    (data rest : list proc_event) (code : option Z) (st : state) :
  forallb is_data data = true ->
  code_nonzero code = true ->
  exists p',
    deliver w rho pdf (data ++ CloseEvent code :: rest) fresh st
    = (log st (map Event data ++ Event (CloseEvent code)
               :: rm_calls (tmpDir st) ++ [Status 500]), inr p') /\
    stderr p' = stderr_text data /\
    stdout p' = stdout_text data /\
    promise p'
    = Rejected (Error ("Decktape failed: "
                       ++ (if str_truthy (stderr_text data)
                           then stderr_text data else stdout_text data))).
Proof.
  intros DA NZ.
  rewrite (deliver_data w rho pdf data _ fresh st DA eq_refl).
  simpl deliver; rewrite (bind_run _ (emit_run _ _)).
  unfold on_close, close_finally; rewrite NZ.
  rewrite (bind_run _ (cleanup_run _ _)).
  destruct (absorb_fresh_pending data) as (P & _).
  rewrite (checkpoint_queued rho
             (p := reject (decktape_failed (absorb data fresh))
                     (absorb data fresh))
             (e := decktape_failed (absorb data fresh)) _);
    [|now rewrite (reject_pending _ _ P)].
  rewrite !log_log, !tmpDir_log, (reject_pending _ _ P).
  eexists; split; [|split; [|split]].
  - reflexivity.
  - cbn [stderr]; now rewrite absorb_stderr.
  - cbn [stdout]; now rewrite absorb_stdout.
  - cbn [promise]; unfold decktape_failed.
    now rewrite absorb_stderr, absorb_stdout.
Qed.

Lemma close_rejects_with_stream_text_witness :
  exists p',
    deliver world_exit1 [] "/tmp/decktape-Ab12Cd/output.pdf"
      [StdoutData "Loading "; StderrData "bo"; StdoutData "page";
       StderrData "om"; CloseEvent (Some 1%Z)]
      fresh {| trace := []; tmpDir := Some "/tmp/decktape-Ab12Cd" |}
    = ({| trace := [Event (StdoutData "Loading "); Event (StderrData "bo");
                    Event (StdoutData "page"); Event (StderrData "om");
                    Event (CloseEvent (Some 1%Z)); Rm "/tmp/decktape-Ab12Cd";
                    Status 500];
          tmpDir := Some "/tmp/decktape-Ab12Cd" |}, inr p') /\
    stderr p' = "boom" /\
    stdout p' = "Loading page" /\
    promise p' = Rejected (Error "Decktape failed: boom").
Proof.
  exact (close_rejects_with_stream_text world_exit1 []
           "/tmp/decktape-Ab12Cd/output.pdf"
           [StdoutData "Loading "; StderrData "bo"; StdoutData "page";
            StderrData "om"] [] (Some 1%Z)
           {| trace := []; tmpDir := Some "/tmp/decktape-Ab12Cd" |}
           eq_refl eq_refl).
Defined.
